(** * usbhid: enumeration of installed HID devices

    A shallow embedding of [USBHID_ns::GetlInstalledDevicesInfo] and of
    [GetDevicePath] (src/usbhid/src/usbhid.cpp).

    The routine is a sequence of calls into the Windows device-management
    layer.  That layer is not part of the repository, so it is a parameter:
    a record [OS] describing what is plugged in (the device state) together
    with the two choices the OS makes on its own (handle values and blob
    addresses).  The calls run in a small state-and-exception monad over a
    [World] that keeps the live OS resources and the log of calls made.

    C++ exceptions are the [Throw] outcome; [assert] is a no-op when [NDEBUG]
    is defined and terminates the process ([Abort]) otherwise. *)

From Stdlib Require Import List NArith Bool Lia Permutation Sorted.
Import ListNotations.

Set Implicit Arguments.
Local Open Scope N_scope.

(** ** Data *)

Definition wchar_t := N.
Definition wstring := list wchar_t.
Definition size_t := N.
Definition USHORT := N.
Definition NTSTATUS := N.

(** Pointer-sized OS values, compared as unsigned addresses (the order
    [std::map<HANDLE, _>] iterates in). *)
Definition HANDLE := N.
Definition HDEVINFO := N.
Definition PHIDP_PREPARSED_DATA := N.

Definition INVALID_HANDLE_VALUE : HANDLE := 2 ^ 64 - 1.
Definition nullptr : N := 0.
Definition npos : size_t := 2 ^ 64 - 1.
Definition HIDP_STATUS_SUCCESS : NTSTATUS := 0x00110000.
Definition HIDP_STATUS_INVALID_PREPARSED_DATA : NTSTATUS := 0xC0110001.

Definition MAX_USB_DEVICE_STR_LEN : size_t := 126.

Record HIDD_ATTRIBUTES := mkHIDD_ATTRIBUTES {
  Size : N;
  VendorID : USHORT;
  ProductID : USHORT;
  VersionNumber : USHORT
}.

(** Modelled from the spec: the capability descriptor of hidpi.h, "report
    sizes and usage information"; the routine copies it as a whole. *)
Record HIDP_CAPS := mkHIDP_CAPS {
  Usage : USHORT;
  UsagePage : USHORT;
  InputReportByteLength : USHORT;
  OutputReportByteLength : USHORT;
  FeatureReportByteLength : USHORT
}.

(** Modelled from the spec: [hidAttributes] of interface/usbhid.hpp,
    "{vendorId, productId, versionNumber}", in the order the aggregate
    initialiser at line 130 fills it. *)
Record hidAttributes := mkHidAttributes {
  vendorId : USHORT;
  productId : USHORT;
  versionNumber : USHORT
}.

(** Modelled from the spec: [hidDeviceInfo] of interface/usbhid.hpp,
    "{path, manufacturer, attributes, capabilities}", in the order the
    aggregate initialiser at line 186 fills it. *)
Record hidDeviceInfo := mkHidDeviceInfo {
  devicePath : wstring;
  manufacturer : wstring;
  attributes : hidAttributes;
  capabilities : HIDP_CAPS
}.

Definition installedDeviceInfoList_t := list hidDeviceInfo.

(** ** std::wstring *)

Fixpoint find_first_of (str : wstring) (c : wchar_t) : size_t :=
  match str with
  | [] => npos
  | x :: rest =>
      if x =? c then 0
      else let r := find_first_of rest c in
           if r =? npos then npos else N.succ r
  end.

Inductive exn := std_out_of_range | std_bad_alloc.

(** [str.erase(index)]: drops everything from [index] on; throws
    [std::out_of_range] when [index > size()]. *)
Definition wstring_erase (str : wstring) (index : size_t) : exn + wstring :=
  if N.of_nat (length str) <? index then inl std_out_of_range
  else inr (firstn (N.to_nat index) str).

(** ** std::map keyed by HANDLE: entries in ascending key order *)

Definition hmap (V : Type) := list (HANDLE * V).

Fixpoint map_emplace {V} (k : HANDLE) (v : V) (m : hmap V) : hmap V :=
  match m with
  | [] => [(k, v)]
  | (k', v') :: rest =>
      if k <? k' then (k, v) :: m
      else if k =? k' then m
      else (k', v') :: map_emplace k v rest
  end.

Fixpoint map_find {V} (k : HANDLE) (m : hmap V) : option V :=
  match m with
  | [] => None
  | (k', v') :: rest => if k =? k' then Some v' else map_find k rest
  end.

(** [m.at(k)] throws [std::out_of_range] for a missing key. *)
Definition map_at {V} (k : HANDLE) (m : hmap V) : exn + V :=
  match map_find k m with
  | Some v => inr v
  | None => inl std_out_of_range
  end.

Definition keys {V} (m : hmap V) : list HANDLE := map fst m.

(** ** The OS layer *)

(** One member of the device-information set. *)
Record Interface := mkInterface {
  if_requiredSize : N;          (* size reported by the first detail call *)
  if_alloc_ok : bool;           (* [new BYTE[requiredSize]] succeeds *)
  if_detail : option wstring    (* the second detail call: the DevicePath *)
}.

(** What the driver stack answers for the device behind one path. *)
Record Device := mkDevice {
  dev_openable : bool;
  dev_manufacturer : option wstring;   (* the code units the driver writes *)
  dev_attributes : option HIDD_ATTRIBUTES;
  dev_preparsed : bool;
  dev_caps : NTSTATUS * HIDP_CAPS
}.

Inductive Call :=
| CallSetupDiGetClassDevs
| CallSetupDiEnumDeviceInterfaces (memberIndex : nat)
| CallSetupDiGetDeviceInterfaceDetail (memberIndex : nat)
| CallCreateFile (path : wstring)
| CallCloseHandle (h : HANDLE)
| CallHidD_GetManufacturerString (h : HANDLE)
| CallHidD_GetAttributes (h : HANDLE)
| CallHidD_GetPreparsedData (h : HANDLE)
| CallHidD_FreePreparsedData (p : PHIDP_PREPARSED_DATA)
| CallHidP_GetCaps (p : PHIDP_PREPARSED_DATA).

Record World := mkWorld {
  w_devinfo : list HDEVINFO;   (* device-information sets not yet destroyed *)
  w_handles : list (HANDLE * wstring);   (* open handles and their device *)
  w_blobs : list (PHIDP_PREPARSED_DATA * wstring);   (* live preparsed data *)
  w_trace : list Call          (* OS calls made so far, newest first *)
}.

Record OS := mkOS {
  os_devInfoSet : HDEVINFO;    (* INVALID_HANDLE_VALUE: no set *)
  os_interfaces : list Interface;
  os_device : wstring -> Device;
  os_newHandle : World -> wstring -> HANDLE;
  os_newBlob : World -> HANDLE -> PHIDP_PREPARSED_DATA
}.

Fixpoint table_remove {V} (k : N) (t : list (N * V)) : list (N * V) :=
  match t with
  | [] => []
  | (k', v) :: rest => if k =? k' then rest else (k', v) :: table_remove k rest
  end.

(** ** The monad *)

Inductive Outcome (A : Type) :=
| Ok (a : A)
| Throw (e : exn)
| Abort.
Arguments Ok {A} a.
Arguments Throw {A} e.
Arguments Abort {A}.

Definition M (A : Type) := World -> Outcome A * World.

Definition ret {A} (a : A) : M A := fun w => (Ok a, w).

Definition bind {A B} (m : M A) (f : A -> M B) : M B :=
  fun w => match m w with
           | (Ok a, w') => f a w'
           | (Throw e, w') => (Throw e, w')
           | (Abort, w') => (Abort, w')
           end.

Notation "x <- m ;; k" := (bind m (fun x => k))
  (at level 61, m at next level, right associativity).
Notation "m ;;; k" := (bind m (fun _ => k))
  (at level 61, right associativity).

Definition throw {A} (e : exn) : M A := fun w => (Throw e, w).

Definition lift {A} (r : exn + A) : M A :=
  match r with inl e => throw e | inr a => ret a end.

(** [try { body } catch(...) { handler }] *)
Definition try_catch {A} (body handler : M A) : M A :=
  fun w => match body w with
           | (Throw _, w') => handler w'
           | r => r
           end.

(** A local object whose destructor runs [cleanup] when the scope is left,
    by return or by exception. *)
Definition scope_guard {A} (cleanup : M unit) (body : M A) : M A :=
  fun w => match body w with
           | (Ok a, w') => (x <- cleanup ;; ret a) w'
           | (Throw e, w') => (cleanup ;;; throw e) w'
           | (Abort, w') => (Abort, w')
           end.

Definition assert (NDEBUG : bool) (cond : bool) : M unit :=
  fun w => if NDEBUG || cond then (Ok tt, w) else (Abort, w).

Definition log (c : Call) : M unit :=
  fun w => (Ok tt, mkWorld (w_devinfo w) (w_handles w) (w_blobs w) (c :: w_trace w)).

(** ** OS calls *)

Section Calls.
Variable os : OS.

Definition SetupDiGetClassDevs : M HDEVINFO :=
  log CallSetupDiGetClassDevs ;;;
  fun w =>
    let s := os_devInfoSet os in
    if s =? INVALID_HANDLE_VALUE then (Ok s, w)
    else (Ok s, mkWorld (s :: w_devinfo w) (w_handles w) (w_blobs w) (w_trace w)).

Definition SetupDiEnumDeviceInterfaces (hDevInfo : HDEVINFO) (memberIndex : nat)
  : M (option Interface) :=
  log (CallSetupDiEnumDeviceInterfaces memberIndex) ;;;
  ret (nth_error (os_interfaces os) memberIndex).

(** The sizing call (null buffer) and the filling call. *)
Definition SetupDiGetDeviceInterfaceDetail_size (memberIndex : nat) (d : Interface) : M N :=
  log (CallSetupDiGetDeviceInterfaceDetail memberIndex) ;;;
  ret (if_requiredSize d).

Definition SetupDiGetDeviceInterfaceDetail_fill (memberIndex : nat) (d : Interface)
  : M (option wstring) :=
  log (CallSetupDiGetDeviceInterfaceDetail memberIndex) ;;;
  ret (if_detail d).

Definition new_bytes (d : Interface) (n : N) : M unit :=
  if if_alloc_ok d then ret tt else throw std_bad_alloc.

Definition CreateFile (path : wstring) : M HANDLE :=
  log (CallCreateFile path) ;;;
  fun w =>
    if dev_openable (os_device os path) then
      let h := os_newHandle os w path in
      (Ok h, mkWorld (w_devinfo w) ((h, path) :: w_handles w) (w_blobs w) (w_trace w))
    else (Ok INVALID_HANDLE_VALUE, w).

Definition CloseHandle (h : HANDLE) : M unit :=
  log (CallCloseHandle h) ;;;
  fun w => (Ok tt, mkWorld (w_devinfo w) (table_remove h (w_handles w)) (w_blobs w) (w_trace w)).

(** The device an open handle refers to. *)
Definition handle_device (w : World) (h : HANDLE) : option Device :=
  option_map (os_device os) (map_find h (w_handles w)).

Definition blob_device (w : World) (p : PHIDP_PREPARSED_DATA) : option Device :=
  option_map (os_device os) (map_find p (w_blobs w)).

(** The driver overwrites the front of the caller's buffer with at most
    [len] code units. *)
Definition buffer_write (data : wstring) (len : size_t) (buf : wstring) : wstring :=
  let d := firstn (N.to_nat len) data in
  firstn (length buf) (d ++ skipn (length d) buf).

Definition HidD_GetManufacturerString (h : HANDLE) (buf : wstring) (len : size_t)
  : M (bool * wstring) :=
  log (CallHidD_GetManufacturerString h) ;;;
  fun w =>
    match handle_device w h with
    | Some d =>
        match dev_manufacturer d with
        | Some data => (Ok (true, buffer_write data len buf), w)
        | None => (Ok (false, buf), w)
        end
    | None => (Ok (false, buf), w)
    end.

(** Fills the caller's [attribs] on success and leaves it alone otherwise. *)
Definition HidD_GetAttributes (h : HANDLE) (attribs : HIDD_ATTRIBUTES)
  : M (bool * HIDD_ATTRIBUTES) :=
  log (CallHidD_GetAttributes h) ;;;
  fun w =>
    match handle_device w h with
    | Some d =>
        match dev_attributes d with
        | Some a => (Ok (true, a), w)
        | None => (Ok (false, attribs), w)
        end
    | None => (Ok (false, attribs), w)
    end.

Definition HidD_GetPreparsedData (h : HANDLE) : M (option PHIDP_PREPARSED_DATA) :=
  log (CallHidD_GetPreparsedData h) ;;;
  fun w =>
    match map_find h (w_handles w) with
    | Some path =>
        if dev_preparsed (os_device os path) then
          let p := os_newBlob os w h in
          (Ok (Some p), mkWorld (w_devinfo w) (w_handles w) ((p, path) :: w_blobs w) (w_trace w))
        else (Ok None, w)
    | None => (Ok None, w)
    end.

Definition HidD_FreePreparsedData (p : PHIDP_PREPARSED_DATA) : M unit :=
  log (CallHidD_FreePreparsedData p) ;;;
  fun w => (Ok tt, mkWorld (w_devinfo w) (w_handles w) (table_remove p (w_blobs w)) (w_trace w)).

(** Fills the caller's [hidCaps] when the status is success. *)
Definition HidP_GetCaps (p : PHIDP_PREPARSED_DATA) (hidCaps : HIDP_CAPS)
  : M (NTSTATUS * HIDP_CAPS) :=
  log (CallHidP_GetCaps p) ;;;
  fun w =>
    match blob_device w p with
    | Some d =>
        let (status, caps) := dev_caps d in
        if status =? HIDP_STATUS_SUCCESS then (Ok (status, caps), w)
        else (Ok (status, hidCaps), w)
    | None => (Ok (HIDP_STATUS_INVALID_PREPARSED_DATA, hidCaps), w)
    end.

End Calls.

(** ** The program *)

Section Program.
Variable NDEBUG : bool.
Variable os : OS.

(** Lines 212-235. *)
Definition GetDevicePath (hDevInfo : HDEVINFO) (memberIndex : nat) (diData : Interface)
  : M wstring :=
  try_catch
    (requiredSize <- SetupDiGetDeviceInterfaceDetail_size memberIndex diData ;;
     new_bytes diData requiredSize ;;;
     filled <- SetupDiGetDeviceInterfaceDetail_fill memberIndex diData ;;
     match filled with
     | Some DevicePath => ret DevicePath
     | None => ret []
     end)
    (assert NDEBUG false ;;; ret []).

Definition wstring_empty (s : wstring) : bool :=
  match s with [] => true | _ => false end.

(** Lines 51-62.  [fuel] bounds the number of turns of the [while]; the
    routine runs it with one turn more than the set has members. *)
Fixpoint enum_loop (fuel : nat) (deviceInfo : HDEVINFO) (memberIndex : nat)
    (devPaths : list wstring) : M (list wstring) :=
  match fuel with
  | O => ret devPaths
  | S fuel' =>
      more <- SetupDiEnumDeviceInterfaces os deviceInfo memberIndex ;;
      match more with
      | None => ret devPaths
      | Some deviceInterfaceData =>
          devicePath <- GetDevicePath deviceInfo memberIndex deviceInterfaceData ;;
          enum_loop fuel' deviceInfo (S memberIndex)
            (if wstring_empty devicePath then devPaths else devPaths ++ [devicePath])
      end
  end.

Definition devicePaths_init (deviceInfo : HDEVINFO) : M (list wstring) :=
  enum_loop (S (length (os_interfaces os))) deviceInfo 0 [].

(** Lines 69-82. *)
Fixpoint open_loop (devicePaths : list wstring) (handles : hmap wstring)
  : M (hmap wstring) :=
  match devicePaths with
  | [] => ret handles
  | devPath :: rest =>
      handle <- CreateFile os devPath ;;
      open_loop rest
        (if negb (handle =? INVALID_HANDLE_VALUE)
         then map_emplace handle devPath handles
         else handles)
  end.

Definition openDeviceHandles_init (devicePaths : list wstring) : M (hmap wstring) :=
  open_loop devicePaths [].

(** Lines 89-92: the destructor of [CloseHandlesGuard]. *)
Fixpoint CloseHandlesGuard_dtor (m_deviceHandleMap : hmap wstring) : M unit :=
  match m_deviceHandleMap with
  | [] => ret tt
  | elem :: rest => CloseHandle (fst elem) ;;; CloseHandlesGuard_dtor rest
  end.

(** Lines 101-114. *)
Fixpoint manufacturer_loop (elems : hmap wstring) (names : hmap wstring)
  : M (hmap wstring) :=
  match elems with
  | [] => ret names
  | elem :: rest =>
      let hnd := fst elem in
      let str := repeat 0 (N.to_nat MAX_USB_DEVICE_STR_LEN) in
      r <- HidD_GetManufacturerString os (fst elem) str MAX_USB_DEVICE_STR_LEN ;;
      let str := snd r in
      let endOfStr := find_first_of str 0 in
      str <- lift (wstring_erase str endOfStr) ;;
      manufacturer_loop rest (map_emplace hnd str names)
  end.

Definition hndManufacturerMap_init (openDeviceHandles : hmap wstring) : M (hmap wstring) :=
  manufacturer_loop openDeviceHandles [].

(** Lines 121-135. *)
Fixpoint attributes_loop (elems : hmap wstring) (attribs : HIDD_ATTRIBUTES)
    (handleAttributes : hmap hidAttributes) : M (hmap hidAttributes) :=
  match elems with
  | [] => ret handleAttributes
  | elem :: rest =>
      let hnd := fst elem in
      r <- HidD_GetAttributes os (fst elem) attribs ;;
      let attribs := snd r in
      if fst r then
        let attributes :=
          mkHidAttributes (VendorID attribs) (ProductID attribs) (VersionNumber attribs) in
        attributes_loop rest attribs (map_emplace hnd attributes handleAttributes)
      else attributes_loop rest attribs handleAttributes
  end.

Definition sizeof_HIDD_ATTRIBUTES : N := 12.

Definition handleAttributesMap_init (openDeviceHandles : hmap wstring)
  : M (hmap hidAttributes) :=
  attributes_loop openDeviceHandles (mkHIDD_ATTRIBUTES sizeof_HIDD_ATTRIBUTES 0 0 0) [].

(** Lines 143-156. *)
Fixpoint preparsed_loop (elems : hmap wstring) (dataMap : hmap PHIDP_PREPARSED_DATA)
  : M (hmap PHIDP_PREPARSED_DATA) :=
  match elems with
  | [] => ret dataMap
  | elem :: rest =>
      let hnd := fst elem in
      r <- HidD_GetPreparsedData os hnd ;;
      match r with
      | Some preparsedData => preparsed_loop rest (map_emplace hnd preparsedData dataMap)
      | None => preparsed_loop rest dataMap
      end
  end.

Definition handlePreparsedDataMap_init (openDeviceHandles : hmap wstring)
  : M (hmap PHIDP_PREPARSED_DATA) :=
  preparsed_loop openDeviceHandles [].

(** The destructor of the map of [parsedDataPtr]: each [unique_ptr] hands a
    non-null pointer to [HidD_FreePreparsedData]. *)
Fixpoint handlePreparsedDataMap_dtor (m : hmap PHIDP_PREPARSED_DATA) : M unit :=
  match m with
  | [] => ret tt
  | elem :: rest =>
      (if snd elem =? nullptr then ret tt else HidD_FreePreparsedData (snd elem)) ;;;
      handlePreparsedDataMap_dtor rest
  end.

(** Lines 163-175.  The local [hidCaps] is not initialised; it is only read
    after a successful call has filled it. *)
Fixpoint caps_loop (elems : hmap PHIDP_PREPARSED_DATA) (hidCaps : HIDP_CAPS)
    (devCaps : hmap HIDP_CAPS) : M (hmap HIDP_CAPS) :=
  match elems with
  | [] => ret devCaps
  | (hnd, preParsedData) :: rest =>
      r <- HidP_GetCaps os preParsedData hidCaps ;;
      let hidCaps := snd r in
      if fst r =? HIDP_STATUS_SUCCESS
      then caps_loop rest hidCaps (map_emplace hnd hidCaps devCaps)
      else caps_loop rest hidCaps devCaps
  end.

Definition devPathCapsMap_init (handlePreparsedDataMap : hmap PHIDP_PREPARSED_DATA)
  : M (hmap HIDP_CAPS) :=
  caps_loop handlePreparsedDataMap (mkHIDP_CAPS 0 0 0 0 0) [].

(** The condition of the assertion at lines 178-180. *)
Definition sizes_agree (handleAttributesMap : hmap hidAttributes)
    (handlePreparsedDataMap : hmap PHIDP_PREPARSED_DATA)
    (devPathCapsMap : hmap HIDP_CAPS) : bool :=
  Nat.eqb (length handleAttributesMap) (length handlePreparsedDataMap) &&
  Nat.eqb (length handlePreparsedDataMap) (length devPathCapsMap).

(** Lines 184-188. *)
Fixpoint assemble_loop (elems : hmap hidAttributes)
    (openDeviceHandles hndManufacturerMap : hmap wstring)
    (devPathCapsMap : hmap HIDP_CAPS)
    (installedDeviceInfoList : installedDeviceInfoList_t) : M installedDeviceInfoList_t :=
  match elems with
  | [] => ret installedDeviceInfoList
  | (hnd, attribs) :: rest =>
      path <- lift (map_at hnd openDeviceHandles) ;;
      name <- lift (map_at hnd hndManufacturerMap) ;;
      caps <- lift (map_at hnd devPathCapsMap) ;;
      let devInfo := mkHidDeviceInfo path name attribs caps in
      assemble_loop rest openDeviceHandles hndManufacturerMap devPathCapsMap
        (installedDeviceInfoList ++ [devInfo])
  end.

(** Lines 44-190: the [try] block.  [None] stands for leaving the block
    without a [return]. *)
Definition try_block : M (option installedDeviceInfoList_t) :=
  deviceInfo <- SetupDiGetClassDevs os ;;
  if negb (deviceInfo =? INVALID_HANDLE_VALUE) then
    devicePaths <- devicePaths_init deviceInfo ;;
    openDeviceHandles <- openDeviceHandles_init devicePaths ;;
    scope_guard (CloseHandlesGuard_dtor openDeviceHandles)
      (hndManufacturerMap <- hndManufacturerMap_init openDeviceHandles ;;
       handleAttributesMap <- handleAttributesMap_init openDeviceHandles ;;
       handlePreparsedDataMap <- handlePreparsedDataMap_init openDeviceHandles ;;
       scope_guard (handlePreparsedDataMap_dtor handlePreparsedDataMap)
         (devPathCapsMap <- devPathCapsMap_init handlePreparsedDataMap ;;
          assert NDEBUG
            (sizes_agree handleAttributesMap handlePreparsedDataMap devPathCapsMap) ;;;
          installedDeviceInfoList <-
            assemble_loop handleAttributesMap openDeviceHandles hndManufacturerMap
              devPathCapsMap [] ;;
          ret (Some installedDeviceInfoList)))
  else ret None.

(** Lines 40-198. *)
Definition GetlInstalledDevicesInfo : M installedDeviceInfoList_t :=
  r <- try_catch try_block (assert NDEBUG false ;;; ret None) ;;
  match r with
  | Some installedDeviceInfoList => ret installedDeviceInfoList
  | None => ret []
  end.

End Program.

(** * Specification vocabulary *)

(** ** What the OS promises

    A handle returned by a successful open is not [INVALID_HANDLE_VALUE] and
    differs from every handle still open; a preparsed-data address is not
    null and differs from every live one. *)
Record OS_ok (os : OS) : Prop := {
  newHandle_fresh : forall w p, ~ In (os_newHandle os w p) (keys (w_handles w));
  newHandle_valid : forall w p, os_newHandle os w p <> INVALID_HANDLE_VALUE;
  newBlob_fresh : forall w h, ~ In (os_newBlob os w h) (keys (w_blobs w));
  newBlob_nonnull : forall w h, os_newBlob os w h <> nullptr
}.

(** The call left the live resources of [w] as they were. *)
Definition same_resources (w w' : World) : Prop :=
  w_devinfo w' = w_devinfo w /\ w_handles w' = w_handles w /\ w_blobs w' = w_blobs w.

(** The world after one more logged call. *)
Definition logw (c : Call) (w : World) : World :=
  mkWorld (w_devinfo w) (w_handles w) (w_blobs w) (c :: w_trace w).

(** ** Maps *)

Definition hsorted {V} (m : hmap V) : Prop := StronglySorted N.lt (keys m).

(** Every key of the first map is below every key of the second. *)
Definition below {A B} (acc : hmap A) (elems : hmap B) : Prop :=
  forall k k', In k (keys acc) -> In k' (keys elems) -> k < k'.

(** The entries kept by a per-device filter, with the values it computes. *)
Definition fm {A B} (g : A -> option B) (m : hmap A) : hmap B :=
  flat_map (fun e => match g (snd e) with Some b => [(fst e, b)] | None => [] end) m.

(** An open table in which each handle of [m] stands for the device [m]
    records for it. *)
Definition resolves (T : list (N * wstring)) (m : hmap wstring) : Prop :=
  forall h p, In (h, p) m -> map_find h T = Some p.

Definition remove_all (ks : list N) (t : list (N * wstring)) : list (N * wstring) :=
  fold_left (fun t k => table_remove k t) ks t.

Definition is_some {A} (o : option A) : bool :=
  match o with Some _ => true | None => false end.

(** ** What each device contributes *)

Definition zero_buffer : wstring := repeat 0 (N.to_nat MAX_USB_DEVICE_STR_LEN).

(** The buffer after [HidD_GetManufacturerString]. *)
Definition manufacturer_buffer (d : Device) : wstring :=
  match dev_manufacturer d with
  | Some data => buffer_write data MAX_USB_DEVICE_STR_LEN zero_buffer
  | None => zero_buffer
  end.

(** The manufacturer string of the device at [p]; [None] when the
    truncation throws. *)
Definition name_g (os : OS) (p : wstring) : option wstring :=
  let buf := manufacturer_buffer (os_device os p) in
  match wstring_erase buf (find_first_of buf 0) with
  | inr s => Some s
  | inl _ => None
  end.

Definition convert_attributes (a : HIDD_ATTRIBUTES) : hidAttributes :=
  mkHidAttributes (VendorID a) (ProductID a) (VersionNumber a).

Definition attr_g (os : OS) (p : wstring) : option hidAttributes :=
  option_map convert_attributes (dev_attributes (os_device os p)).

Definition parse_g (os : OS) (p : wstring) : option HIDP_CAPS :=
  if fst (dev_caps (os_device os p)) =? HIDP_STATUS_SUCCESS
  then Some (snd (dev_caps (os_device os p))) else None.

Definition caps_g (os : OS) (p : wstring) : option HIDP_CAPS :=
  if dev_preparsed (os_device os p) then parse_g os p else None.

Definition has_preparsed (os : OS) (e : HANDLE * wstring) : bool :=
  dev_preparsed (os_device os (snd e)).

(** One successful preparsed-data query: the handle, the address handed
    out, the device. *)
Definition t_hp (t : HANDLE * PHIDP_PREPARSED_DATA * wstring) := (fst (fst t), snd (fst t)).
Definition t_pp (t : HANDLE * PHIDP_PREPARSED_DATA * wstring) := (snd (fst t), snd t).
Definition t_hpath (t : HANDLE * PHIDP_PREPARSED_DATA * wstring) := (fst (fst t), snd t).

(** The path [GetDevicePath] resolves for one member of the set. *)
Definition resolve_path (d : Interface) : wstring :=
  if if_alloc_ok d then match if_detail d with Some p => p | None => [] end else [].

Definition discovered_from (ifs : list Interface) : list wstring :=
  filter (fun p => negb (wstring_empty p)) (map resolve_path ifs).

(** The device paths discovery yields, in enumeration order. *)
Definition discovered (os : OS) : list wstring :=
  discovered_from (os_interfaces os).

Definition openable (os : OS) (p : wstring) : bool := dev_openable (os_device os p).

Definition opened_paths (os : OS) : list wstring := filter (openable os) (discovered os).

Definition name_ok (os : OS) (p : wstring) : bool := is_some (name_g os p).

(** A device with attributes also has capabilities. *)
Definition consistent (os : OS) (p : wstring) : bool :=
  implb (is_some (attr_g os p)) (is_some (caps_g os p)).

Definition path_record (os : OS) (p : wstring) : list hidDeviceInfo :=
  match attr_g os p, name_g os p, caps_g os p with
  | Some a, Some n, Some c => [mkHidDeviceInfo p n a c]
  | _, _, _ => []
  end.

Definition path_records (os : OS) (ps : list wstring) : installedDeviceInfoList_t :=
  flat_map (path_record os) ps.

(** ** The parts of the [try] block *)

(** What the [try] block yields once the handles are open, given the
    verdict [sz] of the assertion on the collection sizes. *)
Definition inner_outcome (NDEBUG : bool) (os : OS) (sz : bool) (ps : list wstring)
  : Outcome (option installedDeviceInfoList_t) :=
  if negb (NDEBUG || sz) then Abort
  else if forallb (consistent os) ps then Ok (Some (path_records os ps))
  else Throw std_out_of_range.

Definition body_outcome (NDEBUG : bool) (os : OS) (sz : bool) (ps : list wstring)
  : Outcome (option installedDeviceInfoList_t) :=
  if negb (forallb (name_ok os) ps) then Throw std_out_of_range
  else inner_outcome NDEBUG os sz ps.

(** Lines 141-189: the preparsed data, its scope, and what runs inside. *)
Definition blob_scope (NDEBUG : bool) (os : OS)
    (openDeviceHandles hndManufacturerMap : hmap wstring)
    (handleAttributesMap : hmap hidAttributes)
  : M (option installedDeviceInfoList_t) :=
  handlePreparsedDataMap <- handlePreparsedDataMap_init os openDeviceHandles ;;
  scope_guard (handlePreparsedDataMap_dtor handlePreparsedDataMap)
    (devPathCapsMap <- devPathCapsMap_init os handlePreparsedDataMap ;;
     assert NDEBUG
       (sizes_agree handleAttributesMap handlePreparsedDataMap devPathCapsMap) ;;;
     installedDeviceInfoList <-
       assemble_loop handleAttributesMap openDeviceHandles hndManufacturerMap
         devPathCapsMap [] ;;
     ret (Some installedDeviceInfoList)).

(** Lines 85-189: the guard on the open handles and what runs under it. *)
Definition handle_scope (NDEBUG : bool) (os : OS) (openDeviceHandles : hmap wstring)
  : M (option installedDeviceInfoList_t) :=
  scope_guard (CloseHandlesGuard_dtor openDeviceHandles)
    (hndManufacturerMap <- hndManufacturerMap_init os openDeviceHandles ;;
     handleAttributesMap <- handleAttributesMap_init os openDeviceHandles ;;
     blob_scope NDEBUG os openDeviceHandles hndManufacturerMap handleAttributesMap).

(** The sequence a returning call yields, up to the order of the handles:
    the records of the opened devices, or nothing when the set is missing or
    the [try] block is left by an exception. *)
Definition expected (os : OS) (ps : list wstring) : installedDeviceInfoList_t :=
  if negb (os_devInfoSet os =? INVALID_HANDLE_VALUE)
     && forallb (name_ok os) ps && forallb (consistent os) ps
  then path_records os ps else [].



(** A computation that never ends in a failed assertion. *)
Definition no_abort {A} (m : M A) : Prop := forall w, fst (m w) <> Abort.

(** A result record backed by a device that answered every query: its path
    was resolved from a member of the set, the open succeeded, and the
    attributes, the preparsed data and the capabilities were obtained. *)
Definition complete (os : OS) (r : hidDeviceInfo) : Prop :=
  let dev := os_device os (devicePath r) in
  devicePath r <> [] /\
  (exists d, In d (os_interfaces os) /\ if_alloc_ok d = true /\
             if_detail d = Some (devicePath r)) /\
  dev_openable dev = true /\
  name_g os (devicePath r) = Some (manufacturer r) /\
  (exists a, dev_attributes dev = Some a /\ attributes r = convert_attributes a) /\
  dev_preparsed dev = true /\
  dev_caps dev = (HIDP_STATUS_SUCCESS, capabilities r).

Definition wstring_eq_dec : forall x y : wstring, {x = y} + {x <> y} :=
  list_eq_dec N.eq_dec.

(** ** A mock OS layer

    Handle values grow with the number of calls logged, so two calls of the
    routine see different handles for the same devices. *)

Definition list_max (l : list N) : N := fold_right N.max 0 l.

Definition mock_newHandle (w : World) (p : wstring) : HANDLE :=
  4 * (1 + list_max (keys (w_handles w)) + N.of_nat (length (w_trace w))).

Definition mock_newBlob (w : World) (h : HANDLE) : PHIDP_PREPARSED_DATA :=
  1 + list_max (keys (w_blobs w)).

Definition fresh_world : World := mkWorld [] [] [] [].

Definition acme_attributes : HIDD_ATTRIBUTES := mkHIDD_ATTRIBUTES 12 0x1234 0x5678 0x0100.
Definition acme_caps : HIDP_CAPS := mkHIDP_CAPS 0 1 8 0 0.

(** Devices by path: [1] answers everything; [2] has no manufacturer
    string; [3] has attributes but no preparsed data; [4] has no attributes;
    [5] fills the manufacturer buffer; anything else cannot be opened. *)
Definition mock_device (p : wstring) : Device :=
  match p with
  | [1] => mkDevice true (Some [65; 99; 0]) (Some acme_attributes) true
             (HIDP_STATUS_SUCCESS, acme_caps)
  | [2] => mkDevice true None (Some acme_attributes) true (HIDP_STATUS_SUCCESS, acme_caps)
  | [3] => mkDevice true (Some [66; 0]) (Some acme_attributes) false
             (HIDP_STATUS_SUCCESS, acme_caps)
  | [4] => mkDevice true (Some [67; 0]) None true (HIDP_STATUS_SUCCESS, acme_caps)
  | [5] => mkDevice true (Some (repeat 7 126)) (Some acme_attributes) true
             (HIDP_STATUS_SUCCESS, acme_caps)
  | _ => mkDevice false None None false (HIDP_STATUS_INVALID_PREPARSED_DATA, acme_caps)
  end.

Definition mock_os (paths : list wstring) : OS :=
  mkOS 100 (map (fun p => mkInterface 10 true (Some p)) paths)
       mock_device mock_newHandle mock_newBlob.

(** The same devices when discovery returns no set. *)
Definition mock_os_no_set (paths : list wstring) : OS :=
  mkOS INVALID_HANDLE_VALUE (map (fun p => mkInterface 10 true (Some p)) paths)
       mock_device mock_newHandle mock_newBlob.

Definition acme_record (p name : wstring) : hidDeviceInfo :=
  mkHidDeviceInfo p name (convert_attributes acme_attributes) acme_caps.

(** A second mock whose handle values ascend during one call of the
    routine and descend during the next: a call is told from the previous
    one by the number of device-information sets alive. *)
Definition list_min (l : list N) : N := fold_right N.min (2 ^ 32) l.

Definition flip_newHandle (w : World) (p : wstring) : HANDLE :=
  let open := keys (w_handles w) in
  if Nat.even (length (w_devinfo w)) && (2 <=? list_min open)
  then list_min open - 1
  else 4 * (1 + list_max open).

Definition flip_os (paths : list wstring) : OS :=
  mkOS 100 (map (fun p => mkInterface 10 true (Some p)) paths)
       mock_device flip_newHandle mock_newBlob.

(** ** Further vocabulary *)

(** An opened device that makes the whole call fail: its manufacturer
    buffer holds no terminator, or it has attributes but no capabilities. *)
Definition fails_the_call (os : OS) (p : wstring) : Prop :=
  ~ In 0 (manufacturer_buffer (os_device os p)) \/
  (dev_attributes (os_device os p) <> None /\
   (dev_preparsed (os_device os p) = false \/
    fst (dev_caps (os_device os p)) <> HIDP_STATUS_SUCCESS)).

(** The verdict of the assertion at lines 178-180, from the device state:
    as many opened devices with attributes as with preparsed data as with
    capabilities. *)
Definition sizes_spec (os : OS) (ps : list wstring) : bool :=
  Nat.eqb (length (filter (fun p => is_some (attr_g os p)) ps))
          (length (filter (fun p => dev_preparsed (os_device os p)) ps)) &&
  Nat.eqb (length (filter (fun p => dev_preparsed (os_device os p)) ps))
          (length (filter (fun p => is_some (caps_g os p)) ps)).

(** A mock OS that hands out the same handle value for every open. *)
Definition stuck_os (paths : list wstring) : OS :=
  mkOS 100 (map (fun p => mkInterface 10 true (Some p)) paths)
       mock_device (fun _ _ => 8) mock_newBlob.


(** * Allocation failure

    The embedding above lets an allocation fail only in [GetDevicePath].
    [Throwing] embeds lines 40-235 once more, with [std::bad_alloc]
    possible at every statement that may allocate: the growth of a vector
    (59, 183, 187), the construction of a map and its move out of the
    lambda that fills it (71 and 81, 103 and 113, 124 and 134, 145 and 155,
    165 and 174), a node of a map (78, 111, 131, 152, 171), the buffer of
    a string (107, 186, 226).  [alloc_ok line n w] tells whether the
    statement at [line] gets its memory in state [w]; [n] tells the
    allocations of one statement apart: the turn of its loop (the member
    index at 59 and 226), and at 186, which copies two strings, twice the
    turn and one more. *)

Module Throwing.
Section Program.
Variable alloc_ok : N -> nat -> World -> bool.
Variable NDEBUG : bool.
Variable os : OS.

Definition operator_new (line : N) (n : nat) : M unit :=
  fun w => if alloc_ok line n w then (Ok tt, w) else (Throw std_bad_alloc, w).

(** Unwinding: when [body] throws, [cleanup] runs (the destructors of the
    locals alive at that point) and the exception goes on. *)
Definition on_unwind {A} (cleanup : M unit) (body : M A) : M A :=
  fun w => match body w with
           | (Throw e, w') => (cleanup ;;; throw e) w'
           | r => r
           end.

(** The destructor of one [parsedDataPtr]. *)
Definition parsedDataPtr_dtor (p : PHIDP_PREPARSED_DATA) : M unit :=
  if p =? nullptr then ret tt else HidD_FreePreparsedData p.

(** Lines 212-235. *)
Definition GetDevicePath (hDevInfo : HDEVINFO) (memberIndex : nat) (diData : Interface)
  : M wstring :=
  try_catch
    (requiredSize <- SetupDiGetDeviceInterfaceDetail_size memberIndex diData ;;
     new_bytes diData requiredSize ;;;
     filled <- SetupDiGetDeviceInterfaceDetail_fill memberIndex diData ;;
     match filled with
     | Some DevicePath => operator_new 226 memberIndex ;;; ret DevicePath
     | None => ret []
     end)
    (assert NDEBUG false ;;; ret []).

(** Lines 51-62. *)
Fixpoint enum_loop (fuel : nat) (deviceInfo : HDEVINFO) (memberIndex : nat)
    (devPaths : list wstring) : M (list wstring) :=
  match fuel with
  | O => ret devPaths
  | S fuel' =>
      more <- SetupDiEnumDeviceInterfaces os deviceInfo memberIndex ;;
      match more with
      | None => ret devPaths
      | Some deviceInterfaceData =>
          devicePath <- GetDevicePath deviceInfo memberIndex deviceInterfaceData ;;
          if wstring_empty devicePath
          then enum_loop fuel' deviceInfo (S memberIndex) devPaths
          else operator_new 59 memberIndex ;;;
               enum_loop fuel' deviceInfo (S memberIndex) (devPaths ++ [devicePath])
      end
  end.

Definition devicePaths_init (deviceInfo : HDEVINFO) : M (list wstring) :=
  enum_loop (S (length (os_interfaces os))) deviceInfo 0 [].

(** Lines 72-81.  No guard exists yet: an exception leaves the handles
    opened so far as they are. *)
Fixpoint open_loop (turn : nat) (devicePaths : list wstring) (handles : hmap wstring)
  : M (hmap wstring) :=
  match devicePaths with
  | [] => operator_new 81 0 ;;; ret handles
  | devPath :: rest =>
      handle <- CreateFile os devPath ;;
      if negb (handle =? INVALID_HANDLE_VALUE)
      then operator_new 78 turn ;;;
           open_loop (S turn) rest (map_emplace handle devPath handles)
      else open_loop (S turn) rest handles
  end.

Definition openDeviceHandles_init (devicePaths : list wstring) : M (hmap wstring) :=
  operator_new 71 0 ;;; open_loop 0 devicePaths [].

(** Lines 104-113. *)
Fixpoint manufacturer_loop (turn : nat) (elems : hmap wstring) (names : hmap wstring)
  : M (hmap wstring) :=
  match elems with
  | [] => operator_new 113 0 ;;; ret names
  | elem :: rest =>
      let hnd := fst elem in
      operator_new 107 turn ;;;
      let str := repeat 0 (N.to_nat MAX_USB_DEVICE_STR_LEN) in
      r <- HidD_GetManufacturerString os (fst elem) str MAX_USB_DEVICE_STR_LEN ;;
      let str := snd r in
      let endOfStr := find_first_of str 0 in
      str <- lift (wstring_erase str endOfStr) ;;
      operator_new 111 turn ;;;
      manufacturer_loop (S turn) rest (map_emplace hnd str names)
  end.

Definition hndManufacturerMap_init (openDeviceHandles : hmap wstring) : M (hmap wstring) :=
  operator_new 103 0 ;;; manufacturer_loop 0 openDeviceHandles [].

(** Lines 125-134. *)
Fixpoint attributes_loop (turn : nat) (elems : hmap wstring) (attribs : HIDD_ATTRIBUTES)
    (handleAttributes : hmap hidAttributes) : M (hmap hidAttributes) :=
  match elems with
  | [] => operator_new 134 0 ;;; ret handleAttributes
  | elem :: rest =>
      let hnd := fst elem in
      r <- HidD_GetAttributes os (fst elem) attribs ;;
      let attribs := snd r in
      if fst r then
        let attributes :=
          mkHidAttributes (VendorID attribs) (ProductID attribs) (VersionNumber attribs) in
        operator_new 131 turn ;;;
        attributes_loop (S turn) rest attribs (map_emplace hnd attributes handleAttributes)
      else attributes_loop (S turn) rest attribs handleAttributes
  end.

Definition handleAttributesMap_init (openDeviceHandles : hmap wstring)
  : M (hmap hidAttributes) :=
  operator_new 124 0 ;;;
  attributes_loop 0 openDeviceHandles (mkHIDD_ATTRIBUTES sizeof_HIDD_ATTRIBUTES 0 0 0) [].

(** Lines 146-155.  When the insertion at line 152 throws, the temporary
    [parsedDataPtr] is destroyed, then the local [dataMap]. *)
Fixpoint preparsed_loop (turn : nat) (elems : hmap wstring)
    (dataMap : hmap PHIDP_PREPARSED_DATA) : M (hmap PHIDP_PREPARSED_DATA) :=
  match elems with
  | [] =>
      on_unwind (handlePreparsedDataMap_dtor dataMap) (operator_new 155 0) ;;;
      ret dataMap
  | elem :: rest =>
      let hnd := fst elem in
      r <- HidD_GetPreparsedData os hnd ;;
      match r with
      | Some preparsedData =>
          on_unwind
            (parsedDataPtr_dtor preparsedData ;;; handlePreparsedDataMap_dtor dataMap)
            (operator_new 152 turn) ;;;
          preparsed_loop (S turn) rest (map_emplace hnd preparsedData dataMap)
      | None => preparsed_loop (S turn) rest dataMap
      end
  end.

Definition handlePreparsedDataMap_init (openDeviceHandles : hmap wstring)
  : M (hmap PHIDP_PREPARSED_DATA) :=
  operator_new 145 0 ;;; preparsed_loop 0 openDeviceHandles [].

(** Lines 167-174. *)
Fixpoint caps_loop (turn : nat) (elems : hmap PHIDP_PREPARSED_DATA) (hidCaps : HIDP_CAPS)
    (devCaps : hmap HIDP_CAPS) : M (hmap HIDP_CAPS) :=
  match elems with
  | [] => operator_new 174 0 ;;; ret devCaps
  | (hnd, preParsedData) :: rest =>
      r <- HidP_GetCaps os preParsedData hidCaps ;;
      let hidCaps := snd r in
      if fst r =? HIDP_STATUS_SUCCESS
      then operator_new 171 turn ;;;
           caps_loop (S turn) rest hidCaps (map_emplace hnd hidCaps devCaps)
      else caps_loop (S turn) rest hidCaps devCaps
  end.

Definition devPathCapsMap_init (handlePreparsedDataMap : hmap PHIDP_PREPARSED_DATA)
  : M (hmap HIDP_CAPS) :=
  operator_new 165 0 ;;; caps_loop 0 handlePreparsedDataMap (mkHIDP_CAPS 0 0 0 0 0) [].

(** Lines 184-188: line 186 copies two strings into [devInfo]. *)
Fixpoint assemble_loop (turn : nat) (elems : hmap hidAttributes)
    (openDeviceHandles hndManufacturerMap : hmap wstring)
    (devPathCapsMap : hmap HIDP_CAPS)
    (installedDeviceInfoList : installedDeviceInfoList_t) : M installedDeviceInfoList_t :=
  match elems with
  | [] => ret installedDeviceInfoList
  | (hnd, attribs) :: rest =>
      path <- lift (map_at hnd openDeviceHandles) ;;
      operator_new 186 (2 * turn) ;;;
      name <- lift (map_at hnd hndManufacturerMap) ;;
      operator_new 186 (2 * turn + 1) ;;;
      caps <- lift (map_at hnd devPathCapsMap) ;;
      let devInfo := mkHidDeviceInfo path name attribs caps in
      operator_new 187 turn ;;;
      assemble_loop (S turn) rest openDeviceHandles hndManufacturerMap devPathCapsMap
        (installedDeviceInfoList ++ [devInfo])
  end.

(** Lines 141-189: the preparsed data, its scope, and what runs inside. *)
Definition blob_scope (openDeviceHandles hndManufacturerMap : hmap wstring)
    (handleAttributesMap : hmap hidAttributes)
  : M (option installedDeviceInfoList_t) :=
  handlePreparsedDataMap <- handlePreparsedDataMap_init openDeviceHandles ;;
  scope_guard (handlePreparsedDataMap_dtor handlePreparsedDataMap)
    (devPathCapsMap <- devPathCapsMap_init handlePreparsedDataMap ;;
     assert NDEBUG
       (sizes_agree handleAttributesMap handlePreparsedDataMap devPathCapsMap) ;;;
     operator_new 183 0 ;;;
     installedDeviceInfoList <-
       assemble_loop 0 handleAttributesMap openDeviceHandles hndManufacturerMap
         devPathCapsMap [] ;;
     ret (Some installedDeviceInfoList)).

(** Lines 85-189: the guard on the open handles and what runs under it. *)
Definition handle_scope (openDeviceHandles : hmap wstring)
  : M (option installedDeviceInfoList_t) :=
  scope_guard (CloseHandlesGuard_dtor openDeviceHandles)
    (hndManufacturerMap <- hndManufacturerMap_init openDeviceHandles ;;
     handleAttributesMap <- handleAttributesMap_init openDeviceHandles ;;
     blob_scope openDeviceHandles hndManufacturerMap handleAttributesMap).

(** Lines 44-190. *)
Definition try_block : M (option installedDeviceInfoList_t) :=
  deviceInfo <- SetupDiGetClassDevs os ;;
  if negb (deviceInfo =? INVALID_HANDLE_VALUE) then
    devicePaths <- devicePaths_init deviceInfo ;;
    openDeviceHandles <- openDeviceHandles_init devicePaths ;;
    handle_scope openDeviceHandles
  else ret None.

(** Lines 40-198. *)
Definition GetlInstalledDevicesInfo : M installedDeviceInfoList_t :=
  r <- try_catch try_block (assert NDEBUG false ;;; ret None) ;;
  match r with
  | Some installedDeviceInfoList => ret installedDeviceInfoList
  | None => ret []
  end.

End Program.
End Throwing.

(** An oracle that fails the allocation [n] of the statement at [line],
    and no other. *)
Definition fails_at (line : N) (n : nat) : N -> nat -> World -> bool :=
  fun line' n' _ => negb ((line' =? line) && Nat.eqb n' n).

(** The oracle under which every allocation succeeds. *)
Definition never_fails : N -> nat -> World -> bool := fun _ _ _ => true.

(** Every opened handle enters the handle map and the map leaves its
    lambda: no allocation fails at line 78 or at line 81. *)
Definition handles_recorded (alloc_ok : N -> nat -> World -> bool) : Prop :=
  forall n w, alloc_ok 78 n w = true /\ alloc_ok 81 n w = true.



(** A computation that leaves the live resources as they are, however it
    ends. *)
Definition frame {A} (m : M A) : Prop := forall w, same_resources w (snd (m w)).

(** * Facts about the containers *)

Section MapFacts.
Context {V : Type}.
Implicit Types (m : hmap V) (k : HANDLE) (v : V).


Lemma keys_app m1 m2 : keys (m1 ++ m2) = keys m1 ++ keys m2.
Proof. apply map_app. Qed.

Lemma in_keys k v m : In (k, v) m -> In k (keys m).
Proof. intro H. apply (in_map fst) in H. exact H. Qed.

Lemma map_emplace_keys k v m k' :
  In k' (keys (map_emplace k v m)) <-> k' = k \/ In k' (keys m).
Proof.
  induction m as [|[k0 v0] m IH]; simpl.
  - intuition.
  - destruct (N.ltb_spec k k0); simpl; [intuition|].
    destruct (N.eqb_spec k k0); simpl.
    + subst. intuition.
    + rewrite IH. intuition.
Qed.

Lemma map_emplace_sorted k v m : hsorted m -> hsorted (map_emplace k v m).
Proof.
  unfold hsorted. induction m as [|[k0 v0] m IH]; simpl; intro Hs.
  - repeat constructor.
  - inversion Hs as [|? ? Hs' Hall]; subst.
    destruct (N.ltb_spec k k0); simpl.
    + constructor; [exact Hs|]. constructor; [assumption|].
      eapply Forall_impl; [|exact Hall]. simpl; intros; lia.
    + destruct (N.eqb_spec k k0); simpl; [exact Hs|].
      constructor; [auto|].
      apply Forall_forall. intros x Hx.
      apply map_emplace_keys in Hx. destruct Hx as [->|Hx]; [lia|].
      rewrite Forall_forall in Hall. auto.
Qed.

Lemma map_emplace_last k v m :
  (forall k', In k' (keys m) -> k' < k) -> map_emplace k v m = m ++ [(k, v)].
Proof.
  induction m as [|[k0 v0] m IH]; simpl; intro H; [reflexivity|].
  assert (k0 < k) by (apply H; auto).
  destruct (N.ltb_spec k k0); [lia|].
  destruct (N.eqb_spec k k0); [lia|].
  rewrite IH; auto.
Qed.

Lemma map_emplace_perm k v m :
  ~ In k (keys m) -> Permutation (map_emplace k v m) ((k, v) :: m).
Proof.
  induction m as [|[k0 v0] m IH]; simpl; intro H; [reflexivity|].
  destruct (N.ltb_spec k k0); [reflexivity|].
  destruct (N.eqb_spec k k0); [exfalso; auto|].
  rewrite IH by tauto. apply perm_swap.
Qed.

Lemma hsorted_NoDup m : hsorted m -> NoDup (keys m).
Proof.
  unfold hsorted. induction (keys m) as [|a l IH]; intro Hs; [constructor|].
  inversion Hs as [|? ? Hs' Hall]; subst. constructor; auto.
  intro Hin. rewrite Forall_forall in Hall. specialize (Hall _ Hin). lia.
Qed.

Lemma hsorted_tail e m : hsorted (e :: m) -> hsorted m.
Proof. unfold hsorted; simpl; intro H; inversion H; assumption. Qed.

Lemma hsorted_head e m k : hsorted (e :: m) -> In k (keys m) -> fst e < k.
Proof.
  unfold hsorted; simpl; intros H Hin; inversion H as [|? ? _ Hall]; subst.
  rewrite Forall_forall in Hall. auto.
Qed.

Lemma map_find_None k m : ~ In k (keys m) -> map_find k m = None.
Proof.
  induction m as [|[k0 v0] m IH]; simpl; intro H; [reflexivity|].
  destruct (N.eqb_spec k k0); [exfalso; auto|]. apply IH; tauto.
Qed.

Lemma map_find_In k v m : NoDup (keys m) -> In (k, v) m -> map_find k m = Some v.
Proof.
  induction m as [|[k0 v0] m IH]; simpl; intros Hnd Hin; [contradiction|].
  inversion Hnd; subst.
  destruct Hin as [Heq|Hin].
  - inversion Heq; subst. now rewrite N.eqb_refl.
  - destruct (N.eqb_spec k k0); [|auto].
    subst. exfalso. eauto using in_keys.
Qed.

Lemma map_find_Some_In k v m : map_find k m = Some v -> In (k, v) m.
Proof.
  induction m as [|[k0 v0] m IH]; simpl; [discriminate|].
  destruct (N.eqb_spec k k0); intro H.
  - inversion H; subst; auto.
  - auto.
Qed.

Lemma map_find_app k m1 m2 :
  map_find k (m1 ++ m2) =
  match map_find k m1 with Some v => Some v | None => map_find k m2 end.
Proof.
  induction m1 as [|[k0 v0] m1 IH]; simpl; [reflexivity|].
  destruct (k =? k0); auto.
Qed.

(** Removing an entry from a table of resources. *)
Lemma table_remove_app k v (l rest : list (N * V)) :
  ~ In k (keys l) ->
  table_remove k (l ++ (k, v) :: rest) = l ++ rest.
Proof.
  induction l as [|[k0 v0] l IH]; simpl; intro H.
  - now rewrite N.eqb_refl.
  - destruct (N.eqb_spec k k0); [exfalso; auto|]. rewrite IH; tauto.
Qed.

Lemma table_remove_in k (l rest : list (N * V)) :
  In k (keys l) ->
  table_remove k (l ++ rest) = table_remove k l ++ rest /\
  Permutation (keys l) (k :: keys (table_remove k l)).
Proof.
  induction l as [|[k0 v0] l IH]; simpl; intro H; [contradiction|].
  destruct (N.eqb_spec k k0).
  - subst. split; reflexivity.
  - destruct H as [H|H]; [congruence|].
    destruct (IH H) as [E P]. rewrite E. split; [reflexivity|].
    simpl. rewrite P. apply perm_swap.
Qed.

End MapFacts.


Lemma fm_keys_in {A B} (g : A -> option B) (m : hmap A) k :
  In k (keys (fm g m)) -> In k (keys m).
Proof.
  induction m as [|[k0 a] m IH]; simpl; [auto|].
  unfold keys in *. rewrite map_app, in_app_iff.
  destruct (g a); simpl; intuition.
Qed.

Lemma fm_find {A B} (g : A -> option B) (m : hmap A) k a :
  NoDup (keys m) -> In (k, a) m -> map_find k (fm g m) = g a.
Proof.
  induction m as [|[k0 a0] m IH]; simpl; intros Hnd Hin; [contradiction|].
  inversion Hnd as [|? ? Hnotin Hnd']; subst.
  rewrite map_find_app.
  destruct Hin as [Heq|Hin].
  - inversion Heq; subst. destruct (g a); simpl.
    + now rewrite N.eqb_refl.
    + apply map_find_None. intro H. apply fm_keys_in in H. auto.
  - assert (k <> k0) by (intro; subst; eauto using in_keys).
    destruct (g a0); simpl; [|auto].
    destruct (N.eqb_spec k k0); [contradiction|auto].
Qed.

Lemma fm_app {A B} (g : A -> option B) (m1 m2 : hmap A) :
  fm g (m1 ++ m2) = fm g m1 ++ fm g m2.
Proof. apply flat_map_app. Qed.

(** * Facts about the monad and the OS calls *)


Lemma same_resources_refl w : same_resources w w.
Proof. repeat split. Qed.

Lemma same_resources_trans w1 w2 w3 :
  same_resources w1 w2 -> same_resources w2 w3 -> same_resources w1 w3.
Proof. unfold same_resources. intuition congruence. Qed.

Lemma same_resources_logw c w : same_resources w (logw c w).
Proof. repeat split. Qed.

#[local] Hint Resolve same_resources_refl same_resources_logw : core.


Lemma resolves_tail T e m : resolves T (e :: m) -> resolves T m.
Proof. unfold resolves; simpl; auto. Qed.

Lemma below_step {A B} (acc : hmap A) (e : HANDLE * B) (elems : hmap B) (a : A) :
  hsorted (e :: elems) -> below acc (e :: elems) ->
  below (acc ++ [(fst e, a)]) elems.
Proof.
  intros Hs Hb k k' Hk Hk'. rewrite keys_app, in_app_iff in Hk.
  simpl in Hk. destruct Hk as [Hk|[Hk|Hk]].
  - apply Hb; simpl; auto.
  - subst k. eapply hsorted_head; eauto.
  - contradiction.
Qed.

Lemma below_tail {A B} (acc : hmap A) (e : HANDLE * B) (elems : hmap B) :
  below acc (e :: elems) -> below acc elems.
Proof. intros Hb k k' Hk Hk'. apply Hb; simpl; auto. Qed.

Lemma below_emplace {A B} (acc : hmap A) (e : HANDLE * B) (elems : hmap B) (a : A) :
  below acc (e :: elems) -> map_emplace (fst e) a acc = acc ++ [(fst e, a)].
Proof. intro Hb. apply map_emplace_last. intros k' Hk'. apply Hb; simpl; auto. Qed.

Lemma below_nil {A B} (elems : hmap B) : below (@nil (HANDLE * A)) elems.
Proof. intros k k' []. Qed.

Section Spec.
Variable NDEBUG : bool.
Variable os : OS.










(** ** The calls on a handle the table resolves *)

Lemma HidD_GetManufacturerString_run h p w :
  map_find h (w_handles w) = Some p ->
  HidD_GetManufacturerString os h zero_buffer MAX_USB_DEVICE_STR_LEN w =
  (Ok (is_some (dev_manufacturer (os_device os p)), manufacturer_buffer (os_device os p)),
   logw (CallHidD_GetManufacturerString h) w).
Proof.
  intro H. unfold HidD_GetManufacturerString, bind, log, handle_device, manufacturer_buffer.
  simpl. rewrite H. simpl. destruct (dev_manufacturer (os_device os p)); reflexivity.
Qed.

Lemma HidD_GetAttributes_run h p w attribs :
  map_find h (w_handles w) = Some p ->
  HidD_GetAttributes os h attribs w =
  (Ok match dev_attributes (os_device os p) with
      | Some a => (true, a)
      | None => (false, attribs)
      end,
   logw (CallHidD_GetAttributes h) w).
Proof.
  intro H. unfold HidD_GetAttributes, bind, log, handle_device.
  simpl. rewrite H. simpl. destruct (dev_attributes (os_device os p)); reflexivity.
Qed.

Lemma HidP_GetCaps_run ptr p w hidCaps :
  map_find ptr (w_blobs w) = Some p ->
  exists c,
  HidP_GetCaps os ptr hidCaps w =
  (Ok (fst (dev_caps (os_device os p)), c), logw (CallHidP_GetCaps ptr) w) /\
  ((fst (dev_caps (os_device os p)) =? HIDP_STATUS_SUCCESS) = true ->
   c = snd (dev_caps (os_device os p))).
Proof.
  intro H. unfold HidP_GetCaps, bind, log, blob_device.
  simpl. rewrite H. simpl. destruct (dev_caps (os_device os p)) as [st c]; simpl.
  destruct (st =? HIDP_STATUS_SUCCESS) eqn:E; eexists; (split; [reflexivity|]);
    intro; congruence.
Qed.

(** ** Stage 3: manufacturer strings *)

Lemma manufacturer_loop_spec elems : forall acc w,
  resolves (w_handles w) elems -> hsorted elems -> below acc elems ->
  exists w', same_resources w w' /\
    manufacturer_loop os elems acc w =
    (if forallb (fun e => is_some (name_g os (snd e))) elems
     then Ok (acc ++ fm (name_g os) elems) else Throw std_out_of_range, w').
Proof.
  induction elems as [|[h p] elems IH]; intros acc w Hres Hs Hb.
  - exists w. split; [auto|]. simpl. now rewrite app_nil_r.
  - simpl. unfold bind at 1. fold zero_buffer.
    rewrite HidD_GetManufacturerString_run with (p := p) by (apply Hres; simpl; auto).
    simpl. unfold name_g at 1. unfold name_g at 2.
    set (buf := manufacturer_buffer (os_device os p)).
    unfold bind at 1.
    destruct (wstring_erase buf (find_first_of buf 0)) as [e|s] eqn:E; simpl.
    + eexists. split; [apply same_resources_logw|].
      unfold throw. unfold wstring_erase in E.
      destruct (N.of_nat (length buf) <? find_first_of buf 0); inversion E. reflexivity.
    + pose proof (below_emplace (e := (h, p)) s Hb) as He. simpl in He. rewrite He.
      destruct (IH (acc ++ [(h, s)]) (logw (CallHidD_GetManufacturerString h) w))
        as (w' & Hw' & Hrun).
      * eapply resolves_tail; eauto.
      * eapply hsorted_tail; eauto.
      * apply (below_step (e := (h, p))); auto.
      * exists w'. split; [eapply same_resources_trans; [|exact Hw']; auto|].
        unfold ret. rewrite Hrun. rewrite <- app_assoc. reflexivity.
Qed.

(** ** Stage 4: attributes *)

Lemma attributes_loop_spec elems : forall attribs acc w,
  resolves (w_handles w) elems -> hsorted elems -> below acc elems ->
  exists w', same_resources w w' /\
    attributes_loop os elems attribs acc w = (Ok (acc ++ fm (attr_g os) elems), w').
Proof.
  induction elems as [|[h p] elems IH]; intros attribs acc w Hres Hs Hb.
  - exists w. split; [auto|]. simpl. now rewrite app_nil_r.
  - simpl. unfold bind at 1.
    rewrite HidD_GetAttributes_run with (p := p) by (apply Hres; simpl; auto).
    unfold attr_g at 1.
    destruct (dev_attributes (os_device os p)) as [a|]; simpl.
    + pose proof (below_emplace (e := (h, p)) (convert_attributes a) Hb) as He.
      unfold convert_attributes in He. simpl in He. rewrite He.
      edestruct (IH a (acc ++ [(h, convert_attributes a)])
                   (logw (CallHidD_GetAttributes h) w)) as (w' & Hw' & Hrun).
      * eapply resolves_tail; eauto.
      * eapply hsorted_tail; eauto.
      * apply (below_step (e := (h, p))); auto.
      * exists w'. split; [eapply same_resources_trans; [|exact Hw']; auto|].
        unfold convert_attributes in Hrun. rewrite Hrun. rewrite <- app_assoc. reflexivity.
    + edestruct (IH attribs acc (logw (CallHidD_GetAttributes h) w))
        as (w' & Hw' & Hrun).
      * eapply resolves_tail; eauto.
      * eapply hsorted_tail; eauto.
      * eapply below_tail; eauto.
      * exists w'. split; [eapply same_resources_trans; [|exact Hw']; auto|].
        exact Hrun.
Qed.

(** ** Stage 5: preparsed data *)



Lemma HidD_GetPreparsedData_run h p w :
  map_find h (w_handles w) = Some p ->
  HidD_GetPreparsedData os h w =
  let w1 := logw (CallHidD_GetPreparsedData h) w in
  if dev_preparsed (os_device os p)
  then (Ok (Some (os_newBlob os w1 h)),
        mkWorld (w_devinfo w) (w_handles w) ((os_newBlob os w1 h, p) :: w_blobs w)
                (w_trace w1))
  else (Ok None, w1).
Proof.
  intro H. unfold HidD_GetPreparsedData, bind, log. simpl. rewrite H. reflexivity.
Qed.

Lemma preparsed_loop_spec (Hos : OS_ok os) elems : forall acc w,
  resolves (w_handles w) elems -> hsorted elems -> below acc elems ->
  exists tl w',
    preparsed_loop os elems acc w = (Ok (acc ++ map t_hp tl), w') /\
    w_devinfo w' = w_devinfo w /\ w_handles w' = w_handles w /\
    w_blobs w' = rev (map t_pp tl) ++ w_blobs w /\
    map t_hpath tl = filter (has_preparsed os) elems /\
    NoDup (keys (map t_pp tl)) /\
    Forall (fun t => snd (fst t) <> nullptr /\ ~ In (snd (fst t)) (keys (w_blobs w))) tl.
Proof.
  induction elems as [|[h p] elems IH]; intros acc w Hres Hs Hb.
  - exists [], w. simpl. rewrite app_nil_r. repeat split; constructor.
  - simpl. unfold bind at 1.
    rewrite HidD_GetPreparsedData_run with (p := p) by (apply Hres; simpl; auto).
    unfold has_preparsed at 1. simpl.
    destruct (dev_preparsed (os_device os p)) eqn:E.
    + set (w1 := logw (CallHidD_GetPreparsedData h) w).
      set (ptr := os_newBlob os w1 h).
      pose proof (below_emplace (e := (h, p)) ptr Hb) as He. simpl in He. rewrite He.
      match goal with |- context [preparsed_loop os elems _ ?w2] =>
        destruct (IH (acc ++ [(h, ptr)]) w2) as (tl & w' & Hrun & Hd & Hh & Hbl & Hf & Hnd & Hall)
      end.
      * eapply resolves_tail; eauto.
      * eapply hsorted_tail; eauto.
      * apply (below_step (e := (h, p))); auto.
      * simpl in *. exists ((h, ptr, p) :: tl), w'.
        rewrite Hrun, <- app_assoc. simpl.
        repeat split; auto.
        -- rewrite Hbl, <- app_assoc. reflexivity.
        -- now rewrite Hf.
        -- constructor; [|exact Hnd].
           intro Hin. unfold keys in Hin. rewrite map_map in Hin.
           apply in_map_iff in Hin. destruct Hin as (t & Ht & Hin).
           rewrite Forall_forall in Hall. apply (Hall t Hin). simpl. auto.
        -- constructor.
           ++ simpl. split; [apply (newBlob_nonnull Hos)|apply (newBlob_fresh Hos w1 h)].
           ++ eapply Forall_impl; [|exact Hall]. simpl. intros t [Hn Hi]. split; auto.
    + destruct (IH acc (logw (CallHidD_GetPreparsedData h) w))
        as (tl & w' & Hrun & Hd & Hh & Hbl & Hf & Hnd & Hall).
      * eapply resolves_tail; eauto.
      * eapply hsorted_tail; eauto.
      * eapply below_tail; eauto.
      * exists tl, w'. repeat split; auto.
Qed.

(** ** Stage 6: capabilities *)

Lemma caps_loop_spec tl : forall hidCaps acc w,
  Forall (fun t => map_find (snd (fst t)) (w_blobs w) = Some (snd t)) tl ->
  hsorted (map t_hpath tl) -> below acc (map t_hpath tl) ->
  exists w', same_resources w w' /\
    caps_loop os (map t_hp tl) hidCaps acc w = (Ok (acc ++ fm (parse_g os) (map t_hpath tl)), w').
Proof.
  induction tl as [|[[h ptr] p] tl IH]; intros hidCaps acc w Hall Hs Hb.
  - exists w. split; [auto|]. simpl. now rewrite app_nil_r.
  - inversion Hall as [|? ? Hptr Hall']; subst. simpl in Hptr.
    destruct HidP_GetCaps_run with (ptr := ptr) (p := p) (w := w) (hidCaps := hidCaps)
      as (c & Hrun & Hc); [exact Hptr|].
    simpl. unfold bind at 1. rewrite Hrun. simpl.
    unfold parse_g at 1.
    destruct (fst (dev_caps (os_device os p)) =? HIDP_STATUS_SUCCESS) eqn:E.
    + rewrite (Hc eq_refl).
      set (caps := snd (dev_caps (os_device os p))).
      pose proof (below_emplace (e := (h, p)) caps Hb) as He. simpl in He. rewrite He.
      destruct (IH caps (acc ++ [(h, caps)]) (logw (CallHidP_GetCaps ptr) w))
        as (w' & Hw' & Hrun').
      * exact Hall'.
      * eapply hsorted_tail; eauto.
      * apply (below_step (e := (h, p))); auto.
      * exists w'. split; [eapply same_resources_trans; [|exact Hw']; auto|].
        rewrite Hrun', <- app_assoc. reflexivity.
    + destruct (IH c acc (logw (CallHidP_GetCaps ptr) w)) as (w' & Hw' & Hrun').
      * exact Hall'.
      * eapply hsorted_tail; eauto.
      * eapply below_tail; eauto.
      * exists w'. split; [eapply same_resources_trans; [|exact Hw']; auto|].
        exact Hrun'.
Qed.

Lemma fm_parse_filter elems :
  fm (parse_g os) (filter (has_preparsed os) elems) = fm (caps_g os) elems.
Proof.
  induction elems as [|[h p] elems IH]; simpl; [reflexivity|].
  unfold has_preparsed at 1, caps_g at 1. simpl.
  destruct (dev_preparsed (os_device os p)); simpl; now rewrite IH.
Qed.

End Spec.

(** ** Destructors *)


Lemma remove_all_spec ks : forall (L B : list (N * wstring)),
  Permutation (keys L) ks -> NoDup ks -> remove_all ks (L ++ B) = B.
Proof.
  induction ks as [|k ks IH]; intros L B HP Hnd.
  - apply Permutation_sym, Permutation_nil in HP.
    destruct L; [reflexivity|discriminate].
  - simpl. inversion Hnd; subst.
    assert (Hin : In k (keys L)).
    { eapply Permutation_in; [apply Permutation_sym; exact HP|]. simpl; auto. }
    destruct (@table_remove_in _ k L B Hin) as [E P]. rewrite E.
    apply IH; [|assumption].
    eapply Permutation_cons_inv. rewrite <- P. exact HP.
Qed.

Lemma CloseHandlesGuard_dtor_spec m : forall w,
  exists w', CloseHandlesGuard_dtor m w = (Ok tt, w') /\
    w_devinfo w' = w_devinfo w /\ w_blobs w' = w_blobs w /\
    w_handles w' = remove_all (keys m) (w_handles w).
Proof.
  induction m as [|[h p] m IH]; intro w; simpl.
  - exists w. repeat split.
  - unfold bind at 1. unfold CloseHandle, bind, log. simpl.
    match goal with |- context [CloseHandlesGuard_dtor m ?w1] =>
      destruct (IH w1) as (w' & Hrun & Hd & Hb & Hh) end.
    exists w'. rewrite Hrun. repeat split; auto.
Qed.

Lemma handlePreparsedDataMap_dtor_spec m : forall w,
  Forall (fun e => snd e <> nullptr) m ->
  exists w', handlePreparsedDataMap_dtor m w = (Ok tt, w') /\
    w_devinfo w' = w_devinfo w /\ w_handles w' = w_handles w /\
    w_blobs w' = remove_all (map snd m) (w_blobs w).
Proof.
  induction m as [|[h p] m IH]; intros w Hall; simpl.
  - exists w. repeat split.
  - inversion Hall as [|? ? Hp Hall']; subst. simpl in Hp.
    destruct (N.eqb_spec p nullptr); [contradiction|].
    unfold bind at 1. unfold HidD_FreePreparsedData, bind, log. simpl.
    match goal with |- context [handlePreparsedDataMap_dtor m ?w1] =>
      destruct (IH w1 Hall') as (w' & Hrun & Hd & Hh & Hb) end.
    exists w'. rewrite Hrun. repeat split; auto.
Qed.

(** * The pipeline as a function of the device state *)

Section Pipeline.
Variable NDEBUG : bool.
Variable os : OS.









(** ** Stage 7: assembling the result *)

Lemma assemble_loop_spec ODH NAMES CAPS elems : forall acc w,
  (forall h p, In (h, p) elems ->
     map_find h ODH = Some p /\ map_find h NAMES = name_g os p /\
     map_find h CAPS = caps_g os p) ->
  forallb (name_ok os) (map snd elems) = true ->
  assemble_loop (fm (attr_g os) elems) ODH NAMES CAPS acc w =
  (if forallb (consistent os) (map snd elems)
   then Ok (acc ++ path_records os (map snd elems)) else Throw std_out_of_range, w).
Proof.
  induction elems as [|[h p] elems IH]; intros acc w Hl Hn.
  - simpl. now rewrite app_nil_r.
  - simpl in Hn. apply andb_true_iff in Hn. destruct Hn as [Hn Hns].
    destruct (Hl h p (or_introl eq_refl)) as (Ho & Hm & Hc).
    assert (Hl' : forall h p, In (h, p) elems ->
              map_find h ODH = Some p /\ map_find h NAMES = name_g os p /\
              map_find h CAPS = caps_g os p) by (intros; apply Hl; simpl; auto).
    unfold name_ok in Hn.
    simpl. unfold consistent at 1, path_record at 1.
    destruct (attr_g os p) as [a|] eqn:Ea; simpl.
    + unfold bind at 1. unfold lift, map_at. rewrite Ho. unfold ret at 1.
      unfold bind at 1. rewrite Hm.
      destruct (name_g os p) as [n|]; [|discriminate]. unfold ret at 1.
      unfold bind at 1. rewrite Hc.
      destruct (caps_g os p) as [c|]; simpl; [|reflexivity].
      rewrite IH by assumption.
      destruct (forallb (consistent os) (map snd elems)); [|reflexivity].
      now rewrite <- app_assoc.
    + apply IH; assumption.
Qed.

(** ** Stage 1: enumeration *)

Lemma GetDevicePath_run hDevInfo i d w :
  exists w', same_resources w w' /\
    GetDevicePath NDEBUG hDevInfo i d w =
    (if NDEBUG || if_alloc_ok d then Ok (resolve_path d) else Abort, w').
Proof.
  unfold GetDevicePath, try_catch, bind, SetupDiGetDeviceInterfaceDetail_size,
    SetupDiGetDeviceInterfaceDetail_fill, new_bytes, resolve_path, log, bind, assert.
  simpl. destruct (if_alloc_ok d); simpl.
  - rewrite orb_true_r. destruct (if_detail d); eexists; (split; [|reflexivity]);
      repeat split.
  - rewrite orb_false_r. destruct NDEBUG; simpl; eexists; (split; [|reflexivity]);
      repeat split.
Qed.

Lemma nth_error_skipn {A} (l : list A) : forall i d,
  nth_error l i = Some d -> skipn i l = d :: skipn (S i) l.
Proof.
  induction l as [|x l IH]; intros [|i] d H; simpl in *; try discriminate.
  - now inversion H.
  - now apply IH.
Qed.


Lemma enum_loop_spec deviceInfo fuel : forall i acc w,
  (length (os_interfaces os) - i < fuel)%nat ->
  exists w', same_resources w w' /\
    enum_loop NDEBUG os fuel deviceInfo i acc w =
    (if NDEBUG || forallb if_alloc_ok (skipn i (os_interfaces os))
     then Ok (acc ++ discovered_from (skipn i (os_interfaces os))) else Abort, w').
Proof.
  induction fuel as [|fuel IH]; intros i acc w Hf; [lia|].
  cbn [enum_loop]. unfold bind at 1.
  unfold SetupDiEnumDeviceInterfaces, bind, log, ret.
  fold (logw (CallSetupDiEnumDeviceInterfaces i) w).
  destruct (nth_error (os_interfaces os) i) as [d|] eqn:E.
  - rewrite (nth_error_skipn _ _ E).
    assert (i < length (os_interfaces os))%nat
      by (apply nth_error_Some; congruence).
    destruct (GetDevicePath_run deviceInfo i d (logw (CallSetupDiEnumDeviceInterfaces i) w))
      as (w1 & Hw1 & Hrun). rewrite Hrun.
    assert (Hw : same_resources w w1)
      by (eapply same_resources_trans; [|exact Hw1]; auto).
    unfold discovered_from. cbn [forallb map filter].
    destruct (if_alloc_ok d) eqn:Ea.
    + rewrite orb_true_r, andb_true_l.
      destruct (IH (S i) (if wstring_empty (resolve_path d) then acc
                          else acc ++ [resolve_path d]) w1)
        as (w' & Hw' & Hrun'); [lia|].
      exists w'. split; [eapply same_resources_trans; eassumption|].
      rewrite Hrun'. unfold discovered_from.
      destruct (NDEBUG || forallb if_alloc_ok (skipn (S i) (os_interfaces os)));
        [|reflexivity].
      destruct (wstring_empty (resolve_path d)); cbn [negb]; [reflexivity|].
      now rewrite <- app_assoc.
    + rewrite andb_false_l, !orb_false_r. destruct NDEBUG.
      * assert (Hr : resolve_path d = []) by (unfold resolve_path; now rewrite Ea).
        rewrite Hr. cbn.
        destruct (IH (S i) acc w1) as (w' & Hw' & Hrun'); [lia|].
        exists w'. split; [eapply same_resources_trans; eassumption|].
        rewrite Hrun'. reflexivity.
      * exists w1. split; [assumption|reflexivity].
  - assert (Hs : skipn i (os_interfaces os) = []).
    { apply skipn_all2. now apply nth_error_None. }
    rewrite Hs. cbn. rewrite orb_true_r, app_nil_r.
    eexists. split; [|reflexivity]. apply same_resources_logw.
Qed.

Lemma devicePaths_init_spec deviceInfo w :
  exists w', same_resources w w' /\
    devicePaths_init NDEBUG os deviceInfo w =
    (if NDEBUG || forallb if_alloc_ok (os_interfaces os)
     then Ok (discovered os) else Abort, w').
Proof.
  unfold devicePaths_init.
  destruct (enum_loop_spec deviceInfo (fuel := S (length (os_interfaces os))) 0 [] w)
    as (w' & Hw' & Hrun); [lia|].
  exists w'. split; [assumption|]. exact Hrun.
Qed.

(** ** Stage 2: opening the devices *)

Lemma CreateFile_run p w :
  CreateFile os p w =
  let w1 := logw (CallCreateFile p) w in
  if openable os p
  then (Ok (os_newHandle os w1 p),
        mkWorld (w_devinfo w) ((os_newHandle os w1 p, p) :: w_handles w) (w_blobs w)
                (w_trace w1))
  else (Ok INVALID_HANDLE_VALUE, w1).
Proof. reflexivity. Qed.

Lemma open_loop_spec (Hos : OS_ok os) paths : forall acc w,
  hsorted acc -> (forall k, In k (keys acc) -> In k (keys (w_handles w))) ->
  exists opened odh w',
    open_loop os paths acc w = (Ok odh, w') /\
    hsorted odh /\ Permutation odh (acc ++ opened) /\
    w_devinfo w' = w_devinfo w /\ w_blobs w' = w_blobs w /\
    w_handles w' = rev opened ++ w_handles w /\
    map snd opened = filter (openable os) paths /\
    NoDup (keys opened) /\
    (forall k, In k (keys opened) -> ~ In k (keys (w_handles w))).
Proof.
  induction paths as [|p paths IH]; intros acc w Hs Hsub.
  - exists [], acc, w. simpl. rewrite app_nil_r.
    repeat split; auto. constructor.
  - simpl. unfold bind at 1. rewrite CreateFile_run. simpl.
    destruct (openable os p) eqn:E.
    + set (w1 := logw (CallCreateFile p) w).
      set (h := os_newHandle os w1 p).
      assert (Hv : h <> INVALID_HANDLE_VALUE) by apply (newHandle_valid Hos).
      assert (Hfr : ~ In h (keys (w_handles w))) by apply (newHandle_fresh Hos w1 p).
      destruct (N.eqb_spec h INVALID_HANDLE_VALUE); [contradiction|]. simpl.
      match goal with |- context [open_loop os paths _ ?w2] =>
        destruct (IH (map_emplace h p acc) w2)
          as (opened & odh & w' & Hrun & Hso & HP & Hd & Hb & Hh & Hf & Hnd & Hdis)
      end.
      * now apply map_emplace_sorted.
      * intros k Hk. apply map_emplace_keys in Hk. simpl.
        destruct Hk as [->|Hk]; auto.
      * simpl in *. exists ((h, p) :: opened), odh, w'.
        repeat split; auto.
        -- rewrite HP. rewrite (@map_emplace_perm _ h p acc) by auto.
           simpl. apply Permutation_middle.
        -- simpl. rewrite Hh, <- app_assoc. reflexivity.
        -- simpl. now rewrite Hf.
        -- simpl. constructor; [|assumption]. intro Hin. apply (Hdis _ Hin). simpl. auto.
        -- simpl. intros k [<-|Hk]; [assumption|]. intro Hin. apply (Hdis _ Hk).
           simpl. auto.
    + rewrite N.eqb_refl. simpl.
      destruct (IH acc (logw (CallCreateFile p) w))
        as (opened & odh & w' & Hrun & Hso & HP & Hd & Hb & Hh & Hf & Hnd & Hdis); auto.
      exists opened, odh, w'. repeat split; auto.
Qed.

End Pipeline.

Section Body.
Variable NDEBUG : bool.
Variable os : OS.
Hypothesis Hos : OS_ok os.

Lemma forallb_snd {A} (f : A -> bool) (m : hmap A) :
  forallb (fun e => f (snd e)) m = forallb f (map snd m).
Proof. induction m as [|e m IH]; simpl; [reflexivity|now rewrite IH]. Qed.

Lemma hsorted_filter {A} (f : HANDLE * A -> bool) (m : hmap A) :
  hsorted m -> hsorted (filter f m).
Proof.
  unfold hsorted. induction m as [|e m IH]; simpl; intro Hs; [constructor|].
  inversion Hs as [|? ? Hs' Hall]; subst.
  destruct (f e); simpl; [|auto].
  constructor; [auto|].
  apply Forall_forall. intros k Hk. rewrite Forall_forall in Hall. apply Hall.
  unfold keys in *. apply in_map_iff in Hk. destruct Hk as (x & <- & Hx).
  apply filter_In in Hx. apply in_map. tauto.
Qed.

Lemma keys_rev {A} (m : hmap A) : keys (rev m) = rev (keys m).
Proof. apply map_rev. Qed.

Lemma resolves_table (opened : hmap wstring) B m :
  NoDup (keys opened) -> (forall e, In e m -> In e opened) ->
  resolves (rev opened ++ B) m.
Proof.
  intros Hnd Hsub h p Hin. rewrite map_find_app.
  rewrite map_find_In with (v := p); [reflexivity| |].
  - rewrite keys_rev. now apply NoDup_rev.
  - apply in_rev. rewrite rev_involutive. auto.
Qed.




Lemma blob_scope_spec odh w :
  resolves (w_handles w) odh -> hsorted odh ->
  forallb (name_ok os) (map snd odh) = true ->
  exists sz w',
    blob_scope NDEBUG os odh (fm (name_g os) odh) (fm (attr_g os) odh) w =
    (inner_outcome NDEBUG os sz (map snd odh), w') /\
    w_devinfo w' = w_devinfo w /\ w_handles w' = w_handles w /\
    (inner_outcome NDEBUG os sz (map snd odh) <> Abort -> w_blobs w' = w_blobs w).
Proof.
  intros Hres Hs Hn. unfold blob_scope, handlePreparsedDataMap_init.
  destruct (@preparsed_loop_spec os Hos odh [] w Hres Hs (below_nil _))
    as (tl & w1 & Hrun & Hd1 & Hh1 & Hb1 & Hf & Hnd & Hall).
  unfold bind at 1. rewrite Hrun. cbn [app].
  unfold scope_guard, devPathCapsMap_init.
  assert (Hlook : Forall (fun t => map_find (snd (fst t)) (w_blobs w1) = Some (snd t)) tl).
  { apply Forall_forall. intros t Ht. rewrite Hb1, map_find_app.
    rewrite map_find_In with (v := snd t); [reflexivity| |].
    - rewrite keys_rev. now apply NoDup_rev.
    - apply in_rev. rewrite rev_involutive. now apply (in_map t_pp) in Ht. }
  assert (Hs' : hsorted (map t_hpath tl)) by (rewrite Hf; now apply hsorted_filter).
  destruct (@caps_loop_spec os tl (mkHIDP_CAPS 0 0 0 0 0) [] w1 Hlook Hs' (below_nil _))
    as (w2 & (Hd2 & Hh2 & Hb2) & Hrun2).
  unfold bind at 1. rewrite Hrun2. cbn [app].
  rewrite Hf, fm_parse_filter.
  set (sz := sizes_agree (fm (attr_g os) odh) (map t_hp tl) (fm (caps_g os) odh)).
  exists sz. unfold inner_outcome.
  unfold bind at 1. unfold assert.
  destruct (NDEBUG || sz); cbn [negb].
  2:{ exists w2. repeat split; try congruence. }
  unfold bind at 1.
  rewrite assemble_loop_spec; [| |assumption].
  2:{ intros h p Hin. pose proof (hsorted_NoDup Hs) as Hnd'.
      repeat split.
      - now apply map_find_In.
      - now apply fm_find.
      - now apply fm_find. }
  destruct (@handlePreparsedDataMap_dtor_spec (map t_hp tl) w2)
    as (w3 & Hrun3 & Hd3 & Hh3 & Hb3).
  { apply Forall_forall. intros e He. apply in_map_iff in He.
    destruct He as (t & <- & Ht). rewrite Forall_forall in Hall.
    apply (Hall t Ht). }
  assert (Hb : w_blobs w3 = w_blobs w).
  { rewrite Hb3, Hb2, Hb1. apply remove_all_spec.
    - rewrite keys_rev. rewrite <- Permutation_rev.
      unfold keys. rewrite !map_map. reflexivity.
    - unfold keys in Hnd. rewrite map_map in Hnd. rewrite map_map. exact Hnd. }
  exists w3.
  destruct (forallb (consistent os) (map snd odh)); cbn [app];
    unfold bind, ret, throw; rewrite Hrun3; repeat split; congruence.
Qed.


Lemma handle_scope_spec odh opened B w :
  w_handles w = rev opened ++ B -> Permutation odh opened ->
  hsorted odh -> NoDup (keys opened) ->
  exists sz w',
    handle_scope NDEBUG os odh w = (body_outcome NDEBUG os sz (map snd odh), w') /\
    w_devinfo w' = w_devinfo w /\
    (body_outcome NDEBUG os sz (map snd odh) <> Abort ->
     w_handles w' = B /\ w_blobs w' = w_blobs w).
Proof.
  intros Hw HP Hs Hnd.
  assert (Hres : resolves (w_handles w) odh).
  { rewrite Hw. apply resolves_table; [assumption|].
    intros e He. eapply Permutation_in; eassumption. }
  assert (Hclose : forall w1, w_handles w1 = w_handles w ->
            remove_all (keys odh) (w_handles w1) = B).
  { intros w1 ->. rewrite Hw. apply remove_all_spec.
    - rewrite keys_rev, <- Permutation_rev. unfold keys.
      apply Permutation_map, Permutation_sym, HP.
    - now apply hsorted_NoDup. }
  unfold handle_scope, scope_guard, hndManufacturerMap_init, handleAttributesMap_init.
  destruct (@manufacturer_loop_spec os odh [] w Hres Hs (below_nil _))
    as (w1 & (Hd1 & Hh1 & Hb1) & Hrun1).
  unfold bind at 1. rewrite Hrun1.
  change (forallb (fun e : HANDLE * wstring => is_some (name_g os (snd e))) odh)
    with (forallb (fun e : HANDLE * wstring => name_ok os (snd e)) odh).
  rewrite (forallb_snd (name_ok os) odh). unfold body_outcome.
  destruct (forallb (name_ok os) (map snd odh)) eqn:En; cbn [negb app].
  - assert (Hres1 : resolves (w_handles w1) odh) by now rewrite Hh1.
    destruct (@attributes_loop_spec os odh (mkHIDD_ATTRIBUTES sizeof_HIDD_ATTRIBUTES 0 0 0)
                [] w1 Hres1 Hs (below_nil _)) as (w2 & (Hd2 & Hh2 & Hb2) & Hrun2).
    unfold bind at 1. rewrite Hrun2. cbn [app].
    assert (Hres2 : resolves (w_handles w2) odh) by now rewrite Hh2.
    destruct (@blob_scope_spec odh w2 Hres2 Hs En) as (sz & w3 & Hrun3 & Hd3 & Hh3 & Hb3).
    rewrite Hrun3. exists sz.
    destruct (CloseHandlesGuard_dtor_spec odh w3) as (w4 & Hrun4 & Hd4 & Hb4 & Hh4).
    destruct (inner_outcome NDEBUG os sz (map snd odh)) as [r|e|] eqn:Eo.
    + exists w4. unfold bind, ret. rewrite Hrun4.
      repeat split; try congruence.
      * rewrite Hh4. apply Hclose. congruence.
      * rewrite Hb4, Hb3 by discriminate. congruence.
    + exists w4. unfold bind, throw. rewrite Hrun4.
      repeat split; try congruence.
      * rewrite Hh4. apply Hclose. congruence.
      * rewrite Hb4, Hb3 by discriminate. congruence.
    + exists w3. repeat split; congruence.
  - exists false.
    destruct (CloseHandlesGuard_dtor_spec odh w1) as (w4 & Hrun4 & Hd4 & Hb4 & Hh4).
    exists w4. unfold bind, throw. rewrite Hrun4.
    repeat split; try congruence.
    rewrite Hh4. now apply Hclose.
Qed.

Lemma try_block_unfold :
  try_block NDEBUG os =
  (deviceInfo <- SetupDiGetClassDevs os ;;
   if negb (deviceInfo =? INVALID_HANDLE_VALUE) then
     devicePaths <- devicePaths_init NDEBUG os deviceInfo ;;
     openDeviceHandles <- openDeviceHandles_init os devicePaths ;;
     handle_scope NDEBUG os openDeviceHandles
   else ret None).
Proof. reflexivity. Qed.

Lemma SetupDiGetClassDevs_run w :
  os_devInfoSet os <> INVALID_HANDLE_VALUE ->
  SetupDiGetClassDevs os w =
  (Ok (os_devInfoSet os),
   mkWorld (os_devInfoSet os :: w_devinfo w) (w_handles w) (w_blobs w)
           (CallSetupDiGetClassDevs :: w_trace w)).
Proof.
  intro Hv. unfold SetupDiGetClassDevs, bind, log. simpl.
  now rewrite (proj2 (N.eqb_neq _ _) Hv).
Qed.

Lemma try_block_invalid w :
  os_devInfoSet os = INVALID_HANDLE_VALUE ->
  try_block NDEBUG os w = (Ok None, logw CallSetupDiGetClassDevs w).
Proof.
  intro H. unfold try_block, SetupDiGetClassDevs, bind, log. simpl.
  rewrite H. reflexivity.
Qed.

(** The whole [try] block when discovery returns a set. *)
Lemma try_block_spec w :
  os_devInfoSet os <> INVALID_HANDLE_VALUE ->
  exists w', w_devinfo w' = os_devInfoSet os :: w_devinfo w /\
    if NDEBUG || forallb if_alloc_ok (os_interfaces os) then
      exists odh sz,
        hsorted odh /\ Permutation (map snd odh) (opened_paths os) /\
        (exists wc wd, openDeviceHandles_init os (discovered os) wc = (Ok odh, wd) /\
                       resolves (w_handles wd) odh) /\
        try_block NDEBUG os w = (body_outcome NDEBUG os sz (map snd odh), w') /\
        (body_outcome NDEBUG os sz (map snd odh) <> Abort ->
         w_handles w' = w_handles w /\ w_blobs w' = w_blobs w)
    else try_block NDEBUG os w = (Abort, w').
Proof.
  intro Hv.
  set (w0 := mkWorld (os_devInfoSet os :: w_devinfo w) (w_handles w) (w_blobs w)
                     (CallSetupDiGetClassDevs :: w_trace w)).
  assert (Htb : try_block NDEBUG os w =
                (devicePaths <- devicePaths_init NDEBUG os (os_devInfoSet os) ;;
                 openDeviceHandles <- openDeviceHandles_init os devicePaths ;;
                 handle_scope NDEBUG os openDeviceHandles) w0).
  { rewrite try_block_unfold. unfold bind at 1.
    rewrite SetupDiGetClassDevs_run by assumption.
    rewrite (proj2 (N.eqb_neq _ _) Hv). reflexivity. }
  rewrite Htb. clear Htb.
  destruct (devicePaths_init_spec NDEBUG os (os_devInfoSet os) w0)
    as (w1 & (Hd1 & Hh1 & Hb1) & Hrun1).
  cbn [w0 w_devinfo w_handles w_blobs] in Hd1, Hh1, Hb1.
  destruct (NDEBUG || forallb if_alloc_ok (os_interfaces os));
    unfold bind at 1; rewrite Hrun1.
  2:{ exists w1. split; [assumption|reflexivity]. }
  unfold openDeviceHandles_init.
  destruct (@open_loop_spec os Hos (discovered os) [] w1)
    as (opened & odh & w2 & Hrun2 & Hs & HP & Hd2 & Hb2 & Hh2 & Hf & Hnd & Hdis).
  { constructor. }
  { intros k []. }
  cbn [app] in HP.
  unfold bind at 1. rewrite Hrun2.
  destruct (@handle_scope_spec odh opened (w_handles w1) w2 Hh2 HP Hs Hnd)
    as (sz & w3 & Hrun3 & Hd3 & Houtcome).
  exists w3. split; [congruence|].
  exists odh, sz. repeat split; auto.
  - unfold opened_paths. rewrite <- Hf. now apply Permutation_map.
  - exists w1, w2. split; [exact Hrun2|]. rewrite Hh2.
    apply resolves_table; [assumption|].
    intros e He. eapply Permutation_in; eassumption.
  - destruct (Houtcome H). congruence.
  - destruct (Houtcome H). congruence.
Qed.

End Body.

(** * The routine as a whole *)

Lemma GetlInstalledDevicesInfo_unfold NDEBUG os w :
  GetlInstalledDevicesInfo NDEBUG os w =
  match try_block NDEBUG os w with
  | (Ok (Some l), w') => (Ok l, w')
  | (Ok None, w') => (Ok [], w')
  | (Throw _, w') => if NDEBUG then (Ok [], w') else (Abort, w')
  | (Abort, w') => (Abort, w')
  end.
Proof.
  unfold GetlInstalledDevicesInfo, try_catch, bind, assert, ret.
  destruct (try_block NDEBUG os w) as [[[l|]|e|] w']; destruct NDEBUG; reflexivity.
Qed.

Lemma forallb_perm {A} (f : A -> bool) (l1 l2 : list A) :
  Permutation l1 l2 -> forallb f l1 = forallb f l2.
Proof.
  induction 1; simpl; try congruence.
  destruct (f x), (f y); reflexivity.
Qed.


Lemma GetlInstalledDevicesInfo_cases NDEBUG os w l w' :
  OS_ok os ->
  GetlInstalledDevicesInfo NDEBUG os w = (Ok l, w') ->
  exists ps, Permutation ps (opened_paths os) /\ l = expected os ps.
Proof.
  intros Hos Hrun. rewrite GetlInstalledDevicesInfo_unfold in Hrun.
  unfold expected.
  destruct (N.eqb_spec (os_devInfoSet os) INVALID_HANDLE_VALUE) as [Hi|Hv].
  - rewrite try_block_invalid in Hrun by assumption.
    inversion Hrun. exists (opened_paths os). split; reflexivity.
  - destruct (@try_block_spec NDEBUG os Hos w Hv) as (w1 & _ & Hspec).
    destruct (NDEBUG || forallb if_alloc_ok (os_interfaces os)).
    2:{ rewrite Hspec in Hrun. discriminate. }
    destruct Hspec as (odh & sz & _ & HP & _ & Htb & _).
    exists (map snd odh). split; [assumption|].
    rewrite Htb in Hrun. unfold body_outcome, inner_outcome in Hrun.
    cbn [negb andb].
    destruct (forallb (name_ok os) (map snd odh)); cbn [negb andb] in *.
    2:{ destruct NDEBUG; inversion Hrun; reflexivity. }
    destruct (negb (NDEBUG || sz)); [discriminate|].
    destruct (forallb (consistent os) (map snd odh)).
    + inversion Hrun; reflexivity.
    + destruct NDEBUG; inversion Hrun; reflexivity.
Qed.

(** ** The mock OS keeps the promises *)

Lemma list_max_ge l k : In k l -> k <= list_max l.
Proof.
  induction l as [|x l IH]; simpl; intros H; [contradiction|].
  destruct H as [->|H]; [lia|]. specialize (IH H). lia.
Qed.

Lemma mock_os_ok paths : OS_ok (mock_os paths).
Proof.
  assert (Hinv : INVALID_HANDLE_VALUE = 18446744073709551615) by reflexivity.
  constructor; simpl; unfold mock_newHandle, mock_newBlob, nullptr.
  - intros w p H. apply list_max_ge in H. lia.
  - intros w p. lia.
  - intros w h H. apply list_max_ge in H. lia.
  - intros w h. lia.
Qed.

Lemma list_min_le l k : In k l -> list_min l <= k.
Proof.
  induction l as [|x l IH]; simpl; intros H; [contradiction|].
  destruct H as [->|H]; [lia|]. specialize (IH H). lia.
Qed.

Lemma list_min_bound l : list_min l <= 2 ^ 32.
Proof. induction l as [|x l IH]; simpl; lia. Qed.

Lemma flip_os_ok paths : OS_ok (flip_os paths).
Proof.
  assert (Hinv : INVALID_HANDLE_VALUE = 18446744073709551615) by reflexivity.
  assert (Hpow : 2 ^ 32 = 4294967296) by reflexivity.
  constructor; simpl; unfold flip_newHandle, mock_newBlob, nullptr.
  - intros w p H.
    destruct (Nat.even (length (w_devinfo w)));
      destruct (N.leb_spec 2 (list_min (keys (w_handles w)))); cbn [andb] in H;
      first [ apply list_min_le in H; lia | apply list_max_ge in H; lia ].
  - intros w p. pose proof (list_min_bound (keys (w_handles w))).
    destruct (Nat.even (length (w_devinfo w)) && (2 <=? list_min (keys (w_handles w))));
      lia.
  - intros w h H. apply list_max_ge in H. lia.
  - intros w h. lia.
Qed.

(** ** No assertion fails when [NDEBUG] is defined *)

Lemma no_abort_ret {A} (a : A) : no_abort (ret a).
Proof. intro w. discriminate. Qed.

Lemma no_abort_lift {A} (r : exn + A) : no_abort (lift r).
Proof. intro w. destruct r; discriminate. Qed.

Lemma no_abort_bind {A B} (m : M A) (f : A -> M B) :
  no_abort m -> (forall a, no_abort (f a)) -> no_abort (bind m f).
Proof.
  intros Hm Hf w. unfold bind. specialize (Hm w).
  destruct (m w) as [[a|e|] w1]; simpl in *; [apply Hf|discriminate|congruence].
Qed.

Lemma no_abort_try_catch {A} (body handler : M A) :
  no_abort body -> no_abort handler -> no_abort (try_catch body handler).
Proof.
  intros Hb Hh w. unfold try_catch. specialize (Hb w).
  destruct (body w) as [[a|e|] w1]; simpl in *; [discriminate|apply Hh|congruence].
Qed.

Lemma no_abort_scope_guard {A} (cleanup : M unit) (body : M A) :
  no_abort cleanup -> no_abort body -> no_abort (scope_guard cleanup body).
Proof.
  intros Hc Hb w. unfold scope_guard. specialize (Hb w).
  destruct (body w) as [[a|e|] w1]; simpl in *; [| |congruence];
    unfold bind; specialize (Hc w1);
    destruct (cleanup w1) as [[[]|e'|] w2]; simpl in *; congruence.
Qed.

Lemma no_abort_assert cond : no_abort (assert true cond).
Proof. intro w. discriminate. Qed.

Ltac os_call_no_abort :=
  intro w; unfold bind, log, handle_device, blob_device; simpl;
  repeat match goal with
         | |- context [match ?x with _ => _ end] => destruct x; simpl
         end;
  discriminate.

Lemma no_abort_SetupDiGetClassDevs os : no_abort (SetupDiGetClassDevs os).
Proof. unfold SetupDiGetClassDevs. os_call_no_abort. Qed.

Lemma no_abort_CreateFile os p : no_abort (CreateFile os p).
Proof. unfold CreateFile. os_call_no_abort. Qed.

Lemma no_abort_CloseHandle h : no_abort (CloseHandle h).
Proof. unfold CloseHandle. os_call_no_abort. Qed.

Lemma no_abort_HidD_GetManufacturerString os h buf len :
  no_abort (HidD_GetManufacturerString os h buf len).
Proof. unfold HidD_GetManufacturerString. os_call_no_abort. Qed.

Lemma no_abort_HidD_GetAttributes os h attribs : no_abort (HidD_GetAttributes os h attribs).
Proof. unfold HidD_GetAttributes. os_call_no_abort. Qed.

Lemma no_abort_HidD_GetPreparsedData os h : no_abort (HidD_GetPreparsedData os h).
Proof. unfold HidD_GetPreparsedData. os_call_no_abort. Qed.

Lemma no_abort_HidD_FreePreparsedData p : no_abort (HidD_FreePreparsedData p).
Proof. unfold HidD_FreePreparsedData. os_call_no_abort. Qed.

Lemma no_abort_HidP_GetCaps os p hidCaps : no_abort (HidP_GetCaps os p hidCaps).
Proof. unfold HidP_GetCaps. os_call_no_abort. Qed.

Lemma no_abort_GetDevicePath hDevInfo i d : no_abort (GetDevicePath true hDevInfo i d).
Proof.
  intro w. destruct (GetDevicePath_run true hDevInfo i d w) as (w' & _ & ->).
  discriminate.
Qed.

Create HintDb no_abort.

#[local] Hint Resolve no_abort_ret no_abort_lift no_abort_assert
  no_abort_SetupDiGetClassDevs no_abort_CreateFile no_abort_CloseHandle
  no_abort_HidD_GetManufacturerString no_abort_HidD_GetAttributes
  no_abort_HidD_GetPreparsedData no_abort_HidD_FreePreparsedData
  no_abort_HidP_GetCaps no_abort_GetDevicePath : no_abort.

Ltac no_abort_step :=
  first [ solve [auto with no_abort]
        | apply no_abort_bind; [|intro]
        | apply no_abort_scope_guard
        | apply no_abort_try_catch ].

Lemma no_abort_enum_loop os deviceInfo fuel : forall i acc,
  no_abort (enum_loop true os fuel deviceInfo i acc).
Proof.
  induction fuel as [|fuel IH]; intros i acc; simpl; [auto with no_abort|].
  apply no_abort_bind.
  - intro w. discriminate.
  - intros [d|]; [|auto with no_abort].
    apply no_abort_bind; [auto with no_abort|]. intro. apply IH.
Qed.

Lemma no_abort_open_loop os paths : forall acc, no_abort (open_loop os paths acc).
Proof.
  induction paths as [|p paths IH]; intro acc; simpl; [auto with no_abort|].
  apply no_abort_bind; [auto with no_abort|]. intro. apply IH.
Qed.

Lemma no_abort_CloseHandlesGuard_dtor m : no_abort (CloseHandlesGuard_dtor m).
Proof.
  induction m as [|e m IH]; simpl; [auto with no_abort|].
  apply no_abort_bind; [auto with no_abort|]. intro. apply IH.
Qed.

Lemma no_abort_manufacturer_loop os elems : forall names,
  no_abort (manufacturer_loop os elems names).
Proof.
  induction elems as [|e elems IH]; intro names; simpl; [auto with no_abort|].
  repeat no_abort_step.
Qed.

Lemma no_abort_attributes_loop os elems : forall attribs acc,
  no_abort (attributes_loop os elems attribs acc).
Proof.
  induction elems as [|e elems IH]; intros attribs acc; simpl; [auto with no_abort|].
  apply no_abort_bind; [auto with no_abort|]. intros [[] a]; apply IH.
Qed.

Lemma no_abort_preparsed_loop os elems : forall acc,
  no_abort (preparsed_loop os elems acc).
Proof.
  induction elems as [|e elems IH]; intro acc; simpl; [auto with no_abort|].
  apply no_abort_bind; [auto with no_abort|]. intros [p|]; apply IH.
Qed.

Lemma no_abort_handlePreparsedDataMap_dtor m : no_abort (handlePreparsedDataMap_dtor m).
Proof.
  induction m as [|e m IH]; simpl; [auto with no_abort|].
  apply no_abort_bind; [|intro; apply IH].
  destruct (snd e =? nullptr); auto with no_abort.
Qed.

Lemma no_abort_caps_loop os elems : forall hidCaps acc,
  no_abort (caps_loop os elems hidCaps acc).
Proof.
  induction elems as [|[h p] elems IH]; intros hidCaps acc; simpl; [auto with no_abort|].
  apply no_abort_bind; [auto with no_abort|].
  intros [st c]; simpl. destruct (st =? HIDP_STATUS_SUCCESS); apply IH.
Qed.

Lemma no_abort_assemble_loop elems odh names caps : forall acc,
  no_abort (assemble_loop elems odh names caps acc).
Proof.
  induction elems as [|[h a] elems IH]; intro acc; simpl; [auto with no_abort|].
  repeat no_abort_step.
Qed.

#[local] Hint Resolve no_abort_enum_loop no_abort_open_loop
  no_abort_CloseHandlesGuard_dtor no_abort_manufacturer_loop
  no_abort_attributes_loop no_abort_preparsed_loop
  no_abort_handlePreparsedDataMap_dtor no_abort_caps_loop
  no_abort_assemble_loop : no_abort.

Lemma no_abort_try_block os : no_abort (try_block true os).
Proof.
  unfold try_block, devicePaths_init, openDeviceHandles_init, hndManufacturerMap_init,
    handleAttributesMap_init, handlePreparsedDataMap_init, devPathCapsMap_init.
  apply no_abort_bind; [auto with no_abort|]. intro deviceInfo.
  destruct (negb (deviceInfo =? INVALID_HANDLE_VALUE)); [|auto with no_abort].
  repeat no_abort_step.
Qed.

(** * The program with allocation failures *)

(** ** Computations that change no resource *)

Lemma frame_ret {A} (a : A) : frame (ret a).
Proof. intro w. apply same_resources_refl. Qed.

Lemma frame_throw {A} (e : exn) : frame (@throw A e).
Proof. intro w. apply same_resources_refl. Qed.

Lemma frame_lift {A} (r : exn + A) : frame (lift r).
Proof. destruct r; [apply frame_throw|apply frame_ret]. Qed.

Lemma frame_log c : frame (log c).
Proof. intro w. apply same_resources_logw. Qed.

Lemma frame_assert NDEBUG cond : frame (assert NDEBUG cond).
Proof.
  intro w. unfold assert. destruct (NDEBUG || cond); apply same_resources_refl.
Qed.

Lemma frame_bind {A B} (m : M A) (f : A -> M B) :
  frame m -> (forall a, frame (f a)) -> frame (bind m f).
Proof.
  intros Hm Hf w. unfold bind. specialize (Hm w).
  destruct (m w) as [[a|e|] w1]; simpl in *; auto.
  eapply same_resources_trans; [exact Hm|apply Hf].
Qed.

Lemma frame_try_catch {A} (body handler : M A) :
  frame body -> frame handler -> frame (try_catch body handler).
Proof.
  intros Hb Hh w. unfold try_catch. specialize (Hb w).
  destruct (body w) as [[a|e|] w1]; simpl in *; auto.
  eapply same_resources_trans; [exact Hb|apply Hh].
Qed.

Lemma frame_on_unwind {A} (cleanup : M unit) (body : M A) :
  frame cleanup -> frame body -> frame (Throwing.on_unwind cleanup body).
Proof.
  intros Hc Hb w. unfold Throwing.on_unwind. specialize (Hb w).
  destruct (body w) as [[a|e|] w1]; simpl in *; auto.
  eapply same_resources_trans; [exact Hb|].
  apply frame_bind; [exact Hc|intro; apply frame_throw].
Qed.

Lemma frame_operator_new alloc_ok line n : frame (Throwing.operator_new alloc_ok line n).
Proof.
  intro w. unfold Throwing.operator_new.
  destruct (alloc_ok line n w); apply same_resources_refl.
Qed.

Lemma frame_new_bytes d n : frame (new_bytes d n).
Proof. unfold new_bytes. destruct (if_alloc_ok d); [apply frame_ret|apply frame_throw]. Qed.

Lemma frame_SetupDiEnumDeviceInterfaces os s i : frame (SetupDiEnumDeviceInterfaces os s i).
Proof.
  unfold SetupDiEnumDeviceInterfaces.
  apply frame_bind; [apply frame_log|intro; apply frame_ret].
Qed.

Lemma frame_SetupDiGetDeviceInterfaceDetail_size i d :
  frame (SetupDiGetDeviceInterfaceDetail_size i d).
Proof.
  unfold SetupDiGetDeviceInterfaceDetail_size.
  apply frame_bind; [apply frame_log|intro; apply frame_ret].
Qed.

Lemma frame_SetupDiGetDeviceInterfaceDetail_fill i d :
  frame (SetupDiGetDeviceInterfaceDetail_fill i d).
Proof.
  unfold SetupDiGetDeviceInterfaceDetail_fill.
  apply frame_bind; [apply frame_log|intro; apply frame_ret].
Qed.

Lemma frame_HidD_GetManufacturerString os h buf len :
  frame (HidD_GetManufacturerString os h buf len).
Proof.
  unfold HidD_GetManufacturerString.
  apply frame_bind; [apply frame_log|]. intros _ w.
  destruct (handle_device os w h) as [d|]; [|apply same_resources_refl].
  destruct (dev_manufacturer d); apply same_resources_refl.
Qed.

Lemma frame_HidD_GetAttributes os h attribs : frame (HidD_GetAttributes os h attribs).
Proof.
  unfold HidD_GetAttributes.
  apply frame_bind; [apply frame_log|]. intros _ w.
  destruct (handle_device os w h) as [d|]; [|apply same_resources_refl].
  destruct (dev_attributes d); apply same_resources_refl.
Qed.

Lemma frame_HidP_GetCaps os p hidCaps : frame (HidP_GetCaps os p hidCaps).
Proof.
  unfold HidP_GetCaps.
  apply frame_bind; [apply frame_log|]. intros _ w.
  destruct (blob_device os w p) as [d|]; [|apply same_resources_refl].
  destruct (dev_caps d) as [st c].
  destruct (st =? HIDP_STATUS_SUCCESS); apply same_resources_refl.
Qed.

Create HintDb frame.
#[local] Hint Resolve frame_ret frame_throw frame_lift frame_log frame_assert
  frame_operator_new frame_new_bytes frame_SetupDiEnumDeviceInterfaces
  frame_SetupDiGetDeviceInterfaceDetail_size frame_SetupDiGetDeviceInterfaceDetail_fill
  frame_HidD_GetManufacturerString frame_HidD_GetAttributes frame_HidP_GetCaps : frame.

Ltac frame_step :=
  first [ solve [auto with frame]
        | apply frame_bind; [|intro]
        | apply frame_try_catch
        | apply frame_on_unwind ].

Section ThrowingFacts.
Variable alloc_ok : N -> nat -> World -> bool.
Variable NDEBUG : bool.
Variable os : OS.

Lemma frame_GetDevicePath s i d : frame (Throwing.GetDevicePath alloc_ok NDEBUG s i d).
Proof.
  unfold Throwing.GetDevicePath. repeat frame_step.
  destruct a1; repeat frame_step.
Qed.

Lemma frame_enum_loop s fuel : forall i acc,
  frame (Throwing.enum_loop alloc_ok NDEBUG os fuel s i acc).
Proof.
  induction fuel as [|fuel IH]; intros i acc; simpl; [apply frame_ret|].
  apply frame_bind; [apply frame_SetupDiEnumDeviceInterfaces|].
  intros [d|]; [|apply frame_ret].
  apply frame_bind; [apply frame_GetDevicePath|]. intro p.
  destruct (wstring_empty p); [apply IH|].
  apply frame_bind; [apply frame_operator_new|intro; apply IH].
Qed.

Lemma frame_manufacturer_loop elems : forall turn acc,
  frame (Throwing.manufacturer_loop alloc_ok os turn elems acc).
Proof.
  induction elems as [|e elems IH]; intros turn acc; simpl.
  - repeat frame_step.
  - repeat frame_step; try apply IH.
Qed.

Lemma frame_attributes_loop elems : forall turn attribs acc,
  frame (Throwing.attributes_loop alloc_ok os turn elems attribs acc).
Proof.
  induction elems as [|e elems IH]; intros turn attribs acc; simpl.
  - repeat frame_step.
  - apply frame_bind; [apply frame_HidD_GetAttributes|]. intro r.
    destruct (fst r); [|apply IH].
    apply frame_bind; [apply frame_operator_new|intro; apply IH].
Qed.

Lemma frame_caps_loop elems : forall turn hidCaps acc,
  frame (Throwing.caps_loop alloc_ok os turn elems hidCaps acc).
Proof.
  induction elems as [|[h p] elems IH]; intros turn hidCaps acc; simpl.
  - repeat frame_step.
  - apply frame_bind; [apply frame_HidP_GetCaps|]. intro r.
    destruct (fst r =? HIDP_STATUS_SUCCESS); [|apply IH].
    apply frame_bind; [apply frame_operator_new|intro; apply IH].
Qed.

Lemma frame_assemble_loop ODH NAMES CAPS elems : forall turn acc,
  frame (Throwing.assemble_loop alloc_ok turn elems ODH NAMES CAPS acc).
Proof.
  induction elems as [|[h a] elems IH]; intros turn acc; simpl.
  - apply frame_ret.
  - repeat frame_step; try apply IH.
Qed.

(** ** Opening the devices *)

Lemma throwing_open_loop_agrees paths : forall turn acc w,
  handles_recorded alloc_ok ->
  Throwing.open_loop alloc_ok os turn paths acc w = open_loop os paths acc w.
Proof.
  induction paths as [|p paths IH]; intros turn acc w H; simpl.
  - unfold bind, Throwing.operator_new. now rewrite (proj2 (H 0%nat w)).
  - unfold bind at 1 3.
    destruct (CreateFile os p w) as [[h|e|] w1]; [|reflexivity|reflexivity].
    destruct (negb (h =? INVALID_HANDLE_VALUE)); [|now apply IH].
    unfold bind, Throwing.operator_new. rewrite (proj1 (H turn w1)). now apply IH.
Qed.

(** ** The preparsed data *)

Lemma HidD_FreePreparsedData_run p w :
  HidD_FreePreparsedData p w =
  (Ok tt, mkWorld (w_devinfo w) (w_handles w) (table_remove p (w_blobs w))
                  (CallHidD_FreePreparsedData p :: w_trace w)).
Proof. reflexivity. Qed.

Lemma handlePreparsedDataMap_dtor_frees (m : hmap PHIDP_PREPARSED_DATA) w L B :
  w_blobs w = L ++ B -> Permutation (keys L) (map snd m) -> NoDup (map snd m) ->
  Forall (fun e => snd e <> nullptr) m ->
  exists w', handlePreparsedDataMap_dtor m w = (Ok tt, w') /\
    w_devinfo w' = w_devinfo w /\ w_handles w' = w_handles w /\ w_blobs w' = B.
Proof.
  intros Hw HP Hnd Hall.
  destruct (@handlePreparsedDataMap_dtor_spec m w Hall) as (w' & Hrun & Hd & Hh & Hb).
  exists w'. repeat split; auto.
  rewrite Hb, Hw. now apply remove_all_spec.
Qed.

Lemma throwing_preparsed_loop_spec (Hos : OS_ok os) elems : forall turn acc w L B,
  resolves (w_handles w) elems -> hsorted elems -> below acc elems ->
  w_blobs w = L ++ B -> Permutation (keys L) (map snd acc) -> NoDup (map snd acc) ->
  Forall (fun e => snd e <> nullptr) acc ->
  exists r w',
    Throwing.preparsed_loop alloc_ok os turn elems acc w = (r, w') /\
    w_devinfo w' = w_devinfo w /\ w_handles w' = w_handles w /\
    match r with
    | Ok dm => exists L', w_blobs w' = L' ++ B /\ Permutation (keys L') (map snd dm) /\
                          NoDup (map snd dm) /\ Forall (fun e => snd e <> nullptr) dm
    | Throw _ => w_blobs w' = B
    | Abort => False
    end.
Proof.
  induction elems as [|[h p] elems IH]; intros turn acc w L B Hres Hs Hb Hw HP Hnd Hall.
  - simpl. unfold bind at 1. unfold Throwing.on_unwind, Throwing.operator_new.
    destruct (alloc_ok 155 0%nat w).
    + exists (Ok acc), w. repeat split. exists L. auto.
    + destruct (@handlePreparsedDataMap_dtor_frees acc w L B Hw HP Hnd Hall)
        as (w' & Hrun & Hd & Hh & Hbl).
      exists (Throw std_bad_alloc), w'. unfold bind, throw. rewrite Hrun. auto.
  - simpl. unfold bind at 1.
    rewrite HidD_GetPreparsedData_run with (p := p) by (apply Hres; simpl; auto).
    cbv zeta.
    destruct (dev_preparsed (os_device os p)) eqn:E.
    + set (w1 := logw (CallHidD_GetPreparsedData h) w).
      set (ptr := os_newBlob os w1 h).
      set (w2 := mkWorld (w_devinfo w) (w_handles w) ((ptr, p) :: w_blobs w) (w_trace w1)).
      assert (Hnn : ptr <> nullptr) by apply (newBlob_nonnull Hos).
      assert (Hfr : ~ In ptr (keys (w_blobs w))) by apply (newBlob_fresh Hos w1 h).
      unfold bind at 1. unfold Throwing.on_unwind, Throwing.operator_new.
      destruct (alloc_ok 152 turn w2); cbv beta iota.
      * pose proof (below_emplace (e := (h, p)) ptr Hb) as He. simpl in He. rewrite He.
        destruct (IH (S turn) (acc ++ [(h, ptr)]) w2 ((ptr, p) :: L) B)
          as (r & w' & Hrun & Hd & Hh & Hr).
        -- eapply resolves_tail; eauto.
        -- eapply hsorted_tail; eauto.
        -- apply (below_step (e := (h, p))); auto.
        -- simpl. now rewrite Hw.
        -- rewrite map_app. simpl. rewrite <- Permutation_cons_append.
           now constructor.
        -- rewrite map_app. simpl.
           eapply Permutation_NoDup; [apply Permutation_cons_append|].
           constructor; [|assumption].
           intro Hin. apply Hfr. rewrite Hw. unfold keys. rewrite map_app.
           apply in_or_app. left. eapply Permutation_in; [apply Permutation_sym, HP|].
           exact Hin.
        -- apply Forall_app. split; [assumption|]. constructor; [exact Hnn|constructor].
        -- exists r, w'. repeat split; [exact Hrun|exact Hd|exact Hh|exact Hr].
      * unfold Throwing.parsedDataPtr_dtor.
        destruct (N.eqb_spec ptr nullptr); [contradiction|].
        unfold bind at 1. unfold bind at 1. rewrite HidD_FreePreparsedData_run.
        cbn [w2 w_devinfo w_handles w_blobs w_trace table_remove]. rewrite N.eqb_refl.
        match goal with |- context [handlePreparsedDataMap_dtor acc ?w3] =>
          destruct (@handlePreparsedDataMap_dtor_frees acc w3 L B Hw HP Hnd Hall)
            as (w' & Hrun & Hd & Hh & Hbl)
        end.
        exists (Throw std_bad_alloc), w'. rewrite Hrun. unfold throw. auto.
    + destruct (IH (S turn) acc (logw (CallHidD_GetPreparsedData h) w) L B)
        as (r & w' & Hrun & Hd & Hh & Hr); auto.
      * eapply resolves_tail; eauto.
      * eapply hsorted_tail; eauto.
      * eapply below_tail; eauto.
      * exists r, w'. rewrite Hrun. auto.
Qed.

(** ** The two scopes *)

Lemma throwing_blob_scope_spec (Hos : OS_ok os) odh names attrs w :
  resolves (w_handles w) odh -> hsorted odh ->
  exists r w',
    Throwing.blob_scope alloc_ok NDEBUG os odh names attrs w = (r, w') /\
    w_devinfo w' = w_devinfo w /\ w_handles w' = w_handles w /\
    (r <> Abort -> w_blobs w' = w_blobs w).
Proof.
  intros Hres Hs. unfold Throwing.blob_scope, Throwing.handlePreparsedDataMap_init.
  unfold bind at 1. unfold bind at 1. unfold Throwing.operator_new at 1.
  destruct (alloc_ok 145 0%nat w).
  2:{ exists (Throw std_bad_alloc), w. repeat split. }
  match goal with |- context [Throwing.preparsed_loop _ _ ?t _ ?acc w] =>
    destruct (@throwing_preparsed_loop_spec Hos odh t acc w [] (w_blobs w))
      as (r1 & w1 & Hrun1 & Hd1 & Hh1 & Hr1); auto
  end.
  { apply below_nil. }
  { constructor. }
  rewrite Hrun1. destruct r1 as [dm|e|]; [|exists (Throw e), w1; auto|contradiction].
  destruct Hr1 as (L' & Hb1 & HP & Hnd & Hall).
  unfold scope_guard.
  match goal with |- context [let (_, _) := ?body w1 in _] =>
    assert (Hfr : frame body); [|specialize (Hfr w1); destruct (body w1) as [[a|e|] w2]]
  end.
  { repeat frame_step.
    - unfold Throwing.devPathCapsMap_init. repeat frame_step. apply frame_caps_loop.
    - apply frame_assemble_loop. }
  - destruct Hfr as (Hd2 & Hh2 & Hb2). simpl in Hd2, Hh2, Hb2.
    destruct (@handlePreparsedDataMap_dtor_frees dm w2 L' (w_blobs w))
      as (w3 & Hrun3 & Hd3 & Hh3 & Hb3); auto; [congruence|].
    exists (Ok a), w3. unfold bind, ret. rewrite Hrun3. repeat split; congruence.
  - destruct Hfr as (Hd2 & Hh2 & Hb2). simpl in Hd2, Hh2, Hb2.
    destruct (@handlePreparsedDataMap_dtor_frees dm w2 L' (w_blobs w))
      as (w3 & Hrun3 & Hd3 & Hh3 & Hb3); auto; [congruence|].
    exists (Throw e), w3. unfold bind, throw. rewrite Hrun3. repeat split; congruence.
  - destruct Hfr as (Hd2 & Hh2 & Hb2). simpl in Hd2, Hh2, Hb2.
    exists Abort, w2. repeat split; congruence.
Qed.

Lemma throwing_handle_scope_spec (Hos : OS_ok os) odh opened B w :
  w_handles w = rev opened ++ B -> Permutation odh opened ->
  hsorted odh -> NoDup (keys opened) ->
  exists r w',
    Throwing.handle_scope alloc_ok NDEBUG os odh w = (r, w') /\
    w_devinfo w' = w_devinfo w /\
    (r <> Abort -> w_handles w' = B /\ w_blobs w' = w_blobs w).
Proof.
  intros Hw HP Hs Hnd.
  assert (Hres : resolves (w_handles w) odh).
  { rewrite Hw. apply resolves_table; [assumption|].
    intros e He. eapply Permutation_in; eassumption. }
  assert (Hclose : forall w1, w_handles w1 = w_handles w ->
            remove_all (keys odh) (w_handles w1) = B).
  { intros w1 ->. rewrite Hw. apply remove_all_spec.
    - rewrite keys_rev, <- Permutation_rev. unfold keys.
      apply Permutation_map, Permutation_sym, HP.
    - now apply hsorted_NoDup. }
  assert (Hbody : exists r0 w3,
            (hndManufacturerMap <- Throwing.hndManufacturerMap_init alloc_ok os odh ;;
             handleAttributesMap <- Throwing.handleAttributesMap_init alloc_ok os odh ;;
             Throwing.blob_scope alloc_ok NDEBUG os odh hndManufacturerMap
               handleAttributesMap) w = (r0, w3) /\
            w_devinfo w3 = w_devinfo w /\ w_handles w3 = w_handles w /\
            (r0 <> Abort -> w_blobs w3 = w_blobs w)).
  { unfold bind at 1.
    assert (H1 : frame (Throwing.hndManufacturerMap_init alloc_ok os odh)).
    { unfold Throwing.hndManufacturerMap_init. repeat frame_step.
      apply frame_manufacturer_loop. }
    specialize (H1 w).
    destruct (Throwing.hndManufacturerMap_init alloc_ok os odh w) as [[names|e|] w1];
      destruct H1 as (Hd1 & Hh1 & Hb1); simpl in Hd1, Hh1, Hb1;
      [|exists (Throw e), w1; auto|exists Abort, w1; auto].
    unfold bind at 1.
    assert (H2 : frame (Throwing.handleAttributesMap_init alloc_ok os odh)).
    { unfold Throwing.handleAttributesMap_init. repeat frame_step.
      apply frame_attributes_loop. }
    specialize (H2 w1).
    destruct (Throwing.handleAttributesMap_init alloc_ok os odh w1) as [[attrs|e|] w2];
      destruct H2 as (Hd2 & Hh2 & Hb2); simpl in Hd2, Hh2, Hb2;
      [|exists (Throw e), w2; repeat split; congruence
       |exists Abort, w2; repeat split; congruence].
    destruct (@throwing_blob_scope_spec Hos odh names attrs w2)
      as (r & w3 & Hrun3 & Hd3 & Hh3 & Hb3); [now rewrite Hh2, Hh1|assumption|].
    exists r, w3. rewrite Hrun3. repeat split; try congruence.
    intro Hr. rewrite (Hb3 Hr). congruence. }
  destruct Hbody as (r0 & w3 & Hrun & Hd3 & Hh3 & Hb3).
  unfold Throwing.handle_scope, scope_guard. rewrite Hrun.
  destruct (CloseHandlesGuard_dtor_spec odh w3) as (w4 & Hrun4 & Hd4 & Hb4 & Hh4).
  destruct r0 as [a|e|].
  - exists (Ok a), w4. unfold bind, ret. rewrite Hrun4.
    repeat split; try congruence.
    + rewrite Hh4. now apply Hclose.
    + rewrite Hb4. apply Hb3. discriminate.
  - exists (Throw e), w4. unfold bind, throw. rewrite Hrun4.
    repeat split; try congruence.
    + rewrite Hh4. now apply Hclose.
    + rewrite Hb4. apply Hb3. discriminate.
  - exists Abort, w3. repeat split; congruence.
Qed.

(** ** The [try] block and the routine *)

Lemma throwing_try_block_released (Hos : OS_ok os) w r w' :
  handles_recorded alloc_ok ->
  Throwing.try_block alloc_ok NDEBUG os w = (r, w') -> r <> Abort ->
  w_handles w' = w_handles w /\ w_blobs w' = w_blobs w.
Proof.
  intros Hrec Hrun Hr. unfold Throwing.try_block in Hrun.
  unfold bind at 1 in Hrun. unfold SetupDiGetClassDevs, bind at 1, log in Hrun.
  cbv beta iota in Hrun.
  destruct (os_devInfoSet os =? INVALID_HANDLE_VALUE) eqn:Ev;
    cbv beta iota in Hrun; rewrite ?Ev in Hrun; cbn [negb] in Hrun.
  { inversion Hrun; subst. split; reflexivity. }
  cbn [w_devinfo w_handles w_blobs w_trace] in Hrun.
  set (w0 := mkWorld (os_devInfoSet os :: w_devinfo w) (w_handles w) (w_blobs w)
                     (CallSetupDiGetClassDevs :: w_trace w)) in Hrun.
  unfold bind at 1 in Hrun.
  pose proof (frame_enum_loop (os_devInfoSet os)
                (S (length (os_interfaces os))) 0%nat [] w0) as H1.
  fold (Throwing.devicePaths_init alloc_ok NDEBUG os (os_devInfoSet os)) in H1.
  destruct (Throwing.devicePaths_init alloc_ok NDEBUG os (os_devInfoSet os) w0)
    as [[paths|e|] w1]; destruct H1 as (Hd1 & Hh1 & Hb1); simpl in Hd1, Hh1, Hb1.
  2:{ inversion Hrun; subst. auto. }
  2:{ inversion Hrun; subst. contradiction. }
  unfold bind at 1 in Hrun. unfold Throwing.openDeviceHandles_init in Hrun.
  unfold bind at 1, Throwing.operator_new at 1 in Hrun.
  destruct (alloc_ok 71 0%nat w1).
  2:{ inversion Hrun; subst. auto. }
  rewrite throwing_open_loop_agrees in Hrun by assumption.
  destruct (@open_loop_spec os Hos paths [] w1)
    as (opened & odh & w2 & Hrun2 & Hs & HP & Hd2 & Hb2 & Hh2 & Hf & Hnd & Hdis).
  { constructor. }
  { intros k []. }
  cbn [app] in HP. rewrite Hrun2 in Hrun.
  destruct (@throwing_handle_scope_spec Hos odh opened (w_handles w1) w2 Hh2 HP Hs Hnd)
    as (r' & w3 & Hrun3 & Hd3 & Hrel).
  rewrite Hrun3 in Hrun. inversion Hrun; subst.
  destruct (Hrel Hr). split; congruence.
Qed.

Lemma throwing_routine_released (Hos : OS_ok os) w l w' :
  handles_recorded alloc_ok ->
  Throwing.GetlInstalledDevicesInfo alloc_ok NDEBUG os w = (Ok l, w') ->
  w_handles w' = w_handles w /\ w_blobs w' = w_blobs w.
Proof.
  intros Hrec Hrun. unfold Throwing.GetlInstalledDevicesInfo in Hrun.
  unfold bind at 1, try_catch in Hrun.
  destruct (Throwing.try_block alloc_ok NDEBUG os w) as [[[l'|]|e|] w1] eqn:E.
  - inversion Hrun; subst. apply (@throwing_try_block_released Hos _ _ _ Hrec E). discriminate.
  - inversion Hrun; subst. apply (@throwing_try_block_released Hos _ _ _ Hrec E). discriminate.
  - pose proof (@throwing_try_block_released Hos _ _ _ Hrec E) as Hrel.
    unfold bind, assert in Hrun. clear E.
    destruct NDEBUG; simpl in Hrun; inversion Hrun; subst.
    apply Hrel. discriminate.
  - discriminate.
Qed.

End ThrowingFacts.

(** ** Without allocation failures the two embeddings agree *)

Lemma bind_ext {A B} (m m' : M A) (f f' : A -> M B) :
  (forall w, m w = m' w) -> (forall a w, f a w = f' a w) ->
  forall w, bind m f w = bind m' f' w.
Proof.
  intros Hm Hf w. unfold bind. rewrite Hm.
  destruct (m' w) as [[a|e|] w1]; auto.
Qed.

Lemma scope_guard_ext {A} (cleanup : M unit) (body body' : M A) :
  (forall w, body w = body' w) ->
  forall w, scope_guard cleanup body w = scope_guard cleanup body' w.
Proof. intros H w. unfold scope_guard. now rewrite H. Qed.

Lemma try_catch_ext {A} (body body' handler : M A) :
  (forall w, body w = body' w) ->
  forall w, try_catch body handler w = try_catch body' handler w.
Proof. intros H w. unfold try_catch. now rewrite H. Qed.

Lemma never_fails_recorded : handles_recorded never_fails.
Proof. intros n w. split; reflexivity. Qed.

Ltac skip_new :=
  unfold bind at 1; unfold Throwing.operator_new, never_fails; cbv beta iota.

Section Agreement.
Variable NDEBUG : bool.
Variable os : OS.

Lemma GetDevicePath_agrees s i d w :
  Throwing.GetDevicePath never_fails NDEBUG s i d w = GetDevicePath NDEBUG s i d w.
Proof.
  unfold Throwing.GetDevicePath, GetDevicePath. apply try_catch_ext. clear w.
  intro w. apply bind_ext; [reflexivity|]. intros n w1.
  apply bind_ext; [reflexivity|]. intros _ w2.
  apply bind_ext; [reflexivity|]. intros [p|] w3; reflexivity.
Qed.

Lemma enum_loop_agrees s fuel : forall i acc w,
  Throwing.enum_loop never_fails NDEBUG os fuel s i acc w =
  enum_loop NDEBUG os fuel s i acc w.
Proof.
  induction fuel as [|fuel IH]; intros i acc w; simpl; [reflexivity|].
  apply bind_ext; [reflexivity|]. intros [d|] w1; [|reflexivity].
  apply bind_ext; [intro; apply GetDevicePath_agrees|]. intros p w2.
  destruct (wstring_empty p); [apply IH|]. skip_new. apply IH.
Qed.

Lemma manufacturer_loop_agrees elems : forall turn acc w,
  Throwing.manufacturer_loop never_fails os turn elems acc w =
  manufacturer_loop os elems acc w.
Proof.
  induction elems as [|e elems IH]; intros turn acc w;
    cbn [Throwing.manufacturer_loop manufacturer_loop].
  - reflexivity.
  - skip_new. apply bind_ext; [reflexivity|]. intros r w1.
    apply bind_ext; [reflexivity|]. intros str w2. skip_new. apply IH.
Qed.

Lemma attributes_loop_agrees elems : forall turn attribs acc w,
  Throwing.attributes_loop never_fails os turn elems attribs acc w =
  attributes_loop os elems attribs acc w.
Proof.
  induction elems as [|e elems IH]; intros turn attribs acc w;
    cbn [Throwing.attributes_loop attributes_loop].
  - reflexivity.
  - apply bind_ext; [reflexivity|]. intros r w1.
    destruct (fst r); [|apply IH]. skip_new. apply IH.
Qed.

Lemma preparsed_loop_agrees elems : forall turn acc w,
  Throwing.preparsed_loop never_fails os turn elems acc w =
  preparsed_loop os elems acc w.
Proof.
  induction elems as [|e elems IH]; intros turn acc w;
    cbn [Throwing.preparsed_loop preparsed_loop].
  - reflexivity.
  - apply bind_ext; [reflexivity|]. intros [ptr|] w1; [|apply IH].
    unfold bind at 1. unfold Throwing.on_unwind, Throwing.operator_new, never_fails.
    cbv beta iota. apply IH.
Qed.

Lemma caps_loop_agrees elems : forall turn hidCaps acc w,
  Throwing.caps_loop never_fails os turn elems hidCaps acc w =
  caps_loop os elems hidCaps acc w.
Proof.
  induction elems as [|[h p] elems IH]; intros turn hidCaps acc w;
    cbn [Throwing.caps_loop caps_loop].
  - reflexivity.
  - apply bind_ext; [reflexivity|]. intros r w1.
    destruct (fst r =? HIDP_STATUS_SUCCESS); [|apply IH]. skip_new. apply IH.
Qed.

Lemma assemble_loop_agrees ODH NAMES CAPS elems : forall turn acc w,
  Throwing.assemble_loop never_fails turn elems ODH NAMES CAPS acc w =
  assemble_loop elems ODH NAMES CAPS acc w.
Proof.
  induction elems as [|[h a] elems IH]; intros turn acc w;
    cbn [Throwing.assemble_loop assemble_loop].
  - reflexivity.
  - apply bind_ext; [reflexivity|]. intros path w1. skip_new.
    apply bind_ext; [reflexivity|]. intros name w2. skip_new.
    apply bind_ext; [reflexivity|]. intros caps w3. skip_new. apply IH.
Qed.

Lemma blob_scope_agrees odh names attrs w :
  Throwing.blob_scope never_fails NDEBUG os odh names attrs w =
  blob_scope NDEBUG os odh names attrs w.
Proof.
  unfold Throwing.blob_scope, blob_scope.
  apply bind_ext; [intro; apply preparsed_loop_agrees|]. intros dm w1.
  apply scope_guard_ext. intro w2.
  apply bind_ext; [intro; apply caps_loop_agrees|]. intros caps w3.
  apply bind_ext; [reflexivity|]. intros _ w4. skip_new.
  apply bind_ext; [intro; apply assemble_loop_agrees|]. reflexivity.
Qed.

Lemma handle_scope_agrees odh w :
  Throwing.handle_scope never_fails NDEBUG os odh w = handle_scope NDEBUG os odh w.
Proof.
  unfold Throwing.handle_scope, handle_scope. apply scope_guard_ext. intro w1.
  apply bind_ext; [intro; apply manufacturer_loop_agrees|]. intros names w2.
  apply bind_ext; [intro; apply attributes_loop_agrees|]. intros attrs w3.
  apply blob_scope_agrees.
Qed.

Lemma try_block_agrees w :
  Throwing.try_block never_fails NDEBUG os w = try_block NDEBUG os w.
Proof.
  rewrite try_block_unfold. unfold Throwing.try_block.
  apply bind_ext; [reflexivity|]. intros s w1.
  destruct (negb (s =? INVALID_HANDLE_VALUE)); [|reflexivity].
  apply bind_ext; [intro; apply enum_loop_agrees|]. intros paths w2.
  apply bind_ext; [|intros; apply handle_scope_agrees].
  intro w3. unfold Throwing.openDeviceHandles_init. skip_new.
  apply throwing_open_loop_agrees, never_fails_recorded.
Qed.

(** With [never_fails] the routine of [Throwing] is the routine above. *)
Lemma GetlInstalledDevicesInfo_agrees w :
  Throwing.GetlInstalledDevicesInfo never_fails NDEBUG os w =
  GetlInstalledDevicesInfo NDEBUG os w.
Proof.
  unfold Throwing.GetlInstalledDevicesInfo, GetlInstalledDevicesInfo.
  apply bind_ext; [|reflexivity]. apply try_catch_ext, try_block_agrees.
Qed.

End Agreement.

(** ** Up to [std::bad_alloc] the program with allocation failures runs as
    the program above *)










Section Refinement.
Variable alloc_ok : N -> nat -> World -> bool.
Variable NDEBUG : bool.
Variable os : OS.











End Refinement.

(** * Properties of the routine *)

Lemma find_first_of_absent (s : wstring) (c : wchar_t) :
  ~ In c s -> find_first_of s c = npos.
Proof.
  induction s as [|x s IH]; simpl; intro H; [reflexivity|].
  destruct (N.eqb_spec x c); [exfalso; auto|].
  rewrite IH by tauto. reflexivity.
Qed.

Lemma name_g_overfull os p data :
  dev_manufacturer (os_device os p) = Some data ->
  (N.to_nat MAX_USB_DEVICE_STR_LEN <= length data)%nat ->
  ~ In 0 (firstn (N.to_nat MAX_USB_DEVICE_STR_LEN) data) ->
  name_g os p = None.
Proof.
  intros Hm Hlen Hnz. unfold name_g, manufacturer_buffer. rewrite Hm.
  assert (Hbuf : buffer_write data MAX_USB_DEVICE_STR_LEN zero_buffer =
                 firstn (N.to_nat MAX_USB_DEVICE_STR_LEN) data).
  { unfold buffer_write, zero_buffer. rewrite repeat_length.
    rewrite firstn_length_le by assumption.
    rewrite skipn_all2 by (rewrite repeat_length; apply le_n).
    rewrite app_nil_r. apply firstn_all2. rewrite firstn_length_le by assumption.
    apply le_n. }
  rewrite Hbuf. rewrite find_first_of_absent by assumption.
  unfold wstring_erase. rewrite firstn_length_le by assumption.
  reflexivity.
Qed.

Lemma forallb_false_In {A} (f : A -> bool) (l : list A) x :
  In x l -> f x = false -> forallb f l = false.
Proof.
  intros Hin Hf. destruct (forallb f l) eqn:E; [|reflexivity].
  rewrite forallb_forall in E. rewrite (E x Hin) in Hf. discriminate.
Qed.

Lemma routine_returns_with_NDEBUG os w :
  exists l w',
    GetlInstalledDevicesInfo true os w = (Ok l, w') /\
    (forall e w1, try_block true os w = (Throw e, w1) -> l = []).
Proof.
  rewrite GetlInstalledDevicesInfo_unfold.
  pose proof (no_abort_try_block os w) as Hna.
  destruct (try_block true os w) as [[[l|]|e'|] w']; simpl in Hna.
  - exists l, w'. split; [reflexivity|]. intros; discriminate.
  - exists [], w'. split; [reflexivity|]. intros; discriminate.
  - exists [], w'. split; [reflexivity|]. reflexivity.
  - congruence.
Qed.


(** C6.  When discovery returns the invalid handle, the routine returns the
    empty sequence; the only OS call it has made is the discovery call, and
    no resource has changed. *)
Theorem discovery_invalid_returns_empty NDEBUG os w :
  os_devInfoSet os = INVALID_HANDLE_VALUE ->
  GetlInstalledDevicesInfo NDEBUG os w = (Ok [], logw CallSetupDiGetClassDevs w).
Proof.
  intro H. rewrite GetlInstalledDevicesInfo_unfold, try_block_invalid by assumption.
  reflexivity.
Qed.

Lemma discovery_invalid_witness :
  GetlInstalledDevicesInfo true (mock_os_no_set [[1]; [2]]) fresh_world =
  (Ok [], logw CallSetupDiGetClassDevs fresh_world).
Proof.
  apply (@discovery_invalid_returns_empty true (mock_os_no_set [[1]; [2]]) fresh_world).
  reflexivity.
Defined.

(** C10.  If the manufacturer query of an opened device fills all 126 code
    units of the buffer and none of them is the terminator, the truncation
    throws [std::out_of_range] and the call returns the empty sequence. *)
Theorem overfull_manufacturer_buffer_empties_result os w p data :
  OS_ok os ->
  os_devInfoSet os <> INVALID_HANDLE_VALUE ->
  In p (opened_paths os) ->
  dev_manufacturer (os_device os p) = Some data ->
  (N.to_nat MAX_USB_DEVICE_STR_LEN <= length data)%nat ->
  ~ In 0 (firstn (N.to_nat MAX_USB_DEVICE_STR_LEN) data) ->
  (exists w1, try_block true os w = (Throw std_out_of_range, w1)) /\
  exists w', GetlInstalledDevicesInfo true os w = (Ok [], w').
Proof.
  intros Hos Hv Hin Hm Hlen Hnz.
  destruct (@try_block_spec true os Hos w Hv) as (w1 & _ & Hspec).
  cbn [orb] in Hspec.
  destruct Hspec as (odh & sz & _ & HP & _ & Htb & _).
  assert (Hf : forallb (name_ok os) (map snd odh) = false).
  { apply forallb_false_In with (x := p).
    - eapply Permutation_in; [apply Permutation_sym; exact HP|assumption].
    - unfold name_ok. now rewrite (name_g_overfull os p Hm Hlen Hnz). }
  unfold body_outcome in Htb. rewrite Hf in Htb. cbn [negb] in Htb.
  split; [exists w1; exact Htb|].
  exists w1. rewrite GetlInstalledDevicesInfo_unfold, Htb. reflexivity.
Qed.

Lemma overfull_manufacturer_buffer_witness :
  (exists w1, try_block true (mock_os [[1]; [5]]) fresh_world =
              (Throw std_out_of_range, w1)) /\
  exists w', GetlInstalledDevicesInfo true (mock_os [[1]; [5]]) fresh_world = (Ok [], w').
Proof.
  apply (@overfull_manufacturer_buffer_empties_result
           (mock_os [[1]; [5]]) fresh_world [5] (repeat 7 126)).
  - apply mock_os_ok.
  - vm_compute. discriminate.
  - vm_compute. auto.
  - reflexivity.
  - rewrite repeat_length. apply le_n.
  - intro H. vm_compute in H.
    repeat (destruct H as [H|H]; [discriminate|]). exact H.
Defined.

(** With [NDEBUG] defined, one opened device that has attributes but no
    capabilities empties the result of the whole call. *)
Lemma attributes_without_capabilities_empty_the_result os w p :
  OS_ok os ->
  os_devInfoSet os <> INVALID_HANDLE_VALUE ->
  In p (opened_paths os) ->
  consistent os p = false ->
  exists w', GetlInstalledDevicesInfo true os w = (Ok [], w').
Proof.
  intros Hos Hv Hin Hc.
  destruct (routine_returns_with_NDEBUG os w) as (l & w' & Hrun & _).
  destruct (@GetlInstalledDevicesInfo_cases true os w l w' Hos Hrun) as (ps & HP & Hl).
  exists w'. rewrite Hrun, Hl. unfold expected.
  rewrite (@forallb_false_In _ (consistent os) ps p);
    [now rewrite andb_false_r| |assumption].
  eapply Permutation_in; [apply Permutation_sym; exact HP|assumption].
Qed.

(** C1.  Two devices are discovered; the first answers every query, the
    second has attributes but its preparsed-data query fails.  With
    [NDEBUG] the routine returns the empty sequence, although alone the
    first device is returned; without [NDEBUG] the assertion on the
    collection sizes stops the process. *)
Theorem blob_failure_empties_result :
  fst (GetlInstalledDevicesInfo true (mock_os [[1]; [3]]) fresh_world) = Ok [] /\
  fst (GetlInstalledDevicesInfo true (mock_os [[1]]) fresh_world) =
    Ok [acme_record [1] [65; 99]] /\
  fst (GetlInstalledDevicesInfo false (mock_os [[1]; [3]]) fresh_world) = Abort.
Proof. repeat split; vm_compute; reflexivity. Qed.

(** C2, as stated, fails: after a call that found one device, the
    device-information set obtained from discovery is still live. *)
Lemma device_information_set_not_released :
  exists l w',
    GetlInstalledDevicesInfo true (mock_os [[1]]) fresh_world = (Ok l, w') /\
    w_devinfo w' = [os_devInfoSet (mock_os [[1]])] /\
    ~ same_resources fresh_world w'.
Proof.
  eexists _, _. split; [vm_compute; reflexivity|].
  split; [reflexivity|]. intros [H _]. discriminate H.
Qed.

(** When the insertion at line 78 fails for the second device, no guard
    exists yet: the exception reaches the handler of the routine, which
    returns the empty sequence with both devices still open. *)
Lemma emplace_failure_leaks_handles :
  fst (Throwing.GetlInstalledDevicesInfo (fails_at 78 1) true (mock_os [[1]; [2]])
         fresh_world) = Ok [] /\
  map snd (w_handles (snd (Throwing.GetlInstalledDevicesInfo (fails_at 78 1) true
                             (mock_os [[1]; [2]]) fresh_world))) = [[2]; [1]].
Proof. split; vm_compute; reflexivity. Qed.

(** C2, amended.  Whichever allocations fail, as long as every opened
    handle enters the handle map and the map leaves its lambda (no
    allocation fails at line 78 or 81), every device handle opened and
    every preparsed-data blob obtained during a call is released by the
    time the [try] block is left, whether by its [return], by falling
    through on an invalid discovery handle, or by an exception
    ([std::out_of_range] or [std::bad_alloc]); hence also when the routine
    returns. *)
Theorem handles_and_blobs_released alloc_ok NDEBUG os w :
  OS_ok os ->
  handles_recorded alloc_ok ->
  (forall r w', Throwing.try_block alloc_ok NDEBUG os w = (r, w') -> r <> Abort ->
     w_handles w' = w_handles w /\ w_blobs w' = w_blobs w) /\
  (forall l w', Throwing.GetlInstalledDevicesInfo alloc_ok NDEBUG os w = (Ok l, w') ->
     w_handles w' = w_handles w /\ w_blobs w' = w_blobs w).
Proof.
  intros Hos Hrec. split.
  - intros r w' Hrun Hr. exact (@throwing_try_block_released _ _ _ Hos _ _ _ Hrec Hrun Hr).
  - intros l w' Hrun. exact (@throwing_routine_released _ _ _ Hos _ _ _ Hrec Hrun).
Qed.

Lemma fails_at_recorded line n :
  line <> 78 -> line <> 81 -> handles_recorded (fails_at line n).
Proof.
  intros H78 H81 n' w. unfold fails_at.
  rewrite (proj2 (N.eqb_neq 78 line)), (proj2 (N.eqb_neq 81 line)) by congruence.
  split; reflexivity.
Qed.

Lemma handles_and_blobs_released_witness :
  w_handles (snd (Throwing.GetlInstalledDevicesInfo (fails_at 152 1) true
                    (mock_os [[1]; [2]; [4]]) fresh_world)) = w_handles fresh_world /\
  w_blobs (snd (Throwing.GetlInstalledDevicesInfo (fails_at 152 1) true
                  (mock_os [[1]; [2]; [4]]) fresh_world)) = w_blobs fresh_world.
Proof.
  eapply (proj2 (@handles_and_blobs_released (fails_at 152 1) true
                   (mock_os [[1]; [2]; [4]]) fresh_world (mock_os_ok _)
                   (@fails_at_recorded 152 1%nat ltac:(discriminate) ltac:(discriminate)))).
  vm_compute. reflexivity.
Defined.

(** ** Calls in which the [try] block reaches its [return] *)

Lemma try_block_returns NDEBUG os w l w1 :
  OS_ok os ->
  try_block NDEBUG os w = (Ok (Some l), w1) ->
  exists odh,
    hsorted odh /\ Permutation (map snd odh) (opened_paths os) /\
    (exists wc wd, openDeviceHandles_init os (discovered os) wc = (Ok odh, wd) /\
                   resolves (w_handles wd) odh) /\
    forallb (name_ok os) (map snd odh) = true /\
    forallb (consistent os) (map snd odh) = true /\
    l = path_records os (map snd odh).
Proof.
  intros Hos Hrun.
  destruct (N.eqb_spec (os_devInfoSet os) INVALID_HANDLE_VALUE) as [Hi|Hv].
  { rewrite try_block_invalid in Hrun by assumption. discriminate. }
  destruct (@try_block_spec NDEBUG os Hos w Hv) as (w' & _ & Hspec).
  destruct (NDEBUG || forallb if_alloc_ok (os_interfaces os)).
  2:{ rewrite Hspec in Hrun. discriminate. }
  destruct Hspec as (odh & sz & Hs & HP & Hopen & Htb & _).
  exists odh. rewrite Htb in Hrun. unfold body_outcome, inner_outcome in Hrun.
  destruct (forallb (name_ok os) (map snd odh)); cbn [negb] in Hrun; [|discriminate].
  destruct (negb (NDEBUG || sz)); [discriminate|].
  destruct (forallb (consistent os) (map snd odh)); [|discriminate].
  inversion Hrun. repeat split; auto.
Qed.

(** With [NDEBUG] defined the [return] is reached whenever no opened device
    overfills the manufacturer buffer or has attributes without
    capabilities. *)
Lemma try_block_reaches_return os w :
  OS_ok os ->
  os_devInfoSet os <> INVALID_HANDLE_VALUE ->
  forallb (name_ok os) (opened_paths os) = true ->
  forallb (consistent os) (opened_paths os) = true ->
  exists l w1, try_block true os w = (Ok (Some l), w1).
Proof.
  intros Hos Hv Hn Hc.
  destruct (@try_block_spec true os Hos w Hv) as (w1 & _ & Hspec).
  cbn [orb] in Hspec. destruct Hspec as (odh & sz & _ & HP & _ & Htb & _).
  unfold body_outcome, inner_outcome in Htb.
  rewrite (forallb_perm (name_ok os) HP), Hn in Htb.
  rewrite (forallb_perm (consistent os) HP), Hc in Htb.
  cbn in Htb. eauto.
Qed.

Lemma try_block_returns_routine NDEBUG os w l w1 :
  try_block NDEBUG os w = (Ok (Some l), w1) ->
  GetlInstalledDevicesInfo NDEBUG os w = (Ok l, w1).
Proof. intro H. rewrite GetlInstalledDevicesInfo_unfold, H. reflexivity. Qed.

Lemma path_records_In os ps r :
  In r (path_records os ps) ->
  exists p a n c, In p ps /\ attr_g os p = Some a /\ name_g os p = Some n /\
                  caps_g os p = Some c /\ r = mkHidDeviceInfo p n a c.
Proof.
  unfold path_records. rewrite in_flat_map. intros (p & Hp & Hr).
  unfold path_record in Hr.
  destruct (attr_g os p) as [a|] eqn:Ea; [|contradiction].
  destruct (name_g os p) as [n|] eqn:En; [|contradiction].
  destruct (caps_g os p) as [c|] eqn:Ec; [|contradiction].
  destruct Hr as [<-|[]]. exists p, a, n, c. auto.
Qed.

Lemma discovered_In os p :
  In p (discovered os) ->
  p <> [] /\
  exists d, In d (os_interfaces os) /\ if_alloc_ok d = true /\ if_detail d = Some p.
Proof.
  unfold discovered, discovered_from. rewrite filter_In, in_map_iff.
  intros [(d & Hd & Hin) Hne].
  assert (Hp : p <> []) by (intro E; rewrite E in Hne; discriminate).
  split; [assumption|]. exists d. unfold resolve_path in Hd.
  destruct (if_alloc_ok d); [|congruence].
  destruct (if_detail d); [|congruence]. subst. auto.
Qed.

Lemma caps_g_Some os p c :
  caps_g os p = Some c ->
  dev_preparsed (os_device os p) = true /\
  dev_caps (os_device os p) = (HIDP_STATUS_SUCCESS, c).
Proof.
  unfold caps_g, parse_g.
  destruct (dev_preparsed (os_device os p)); [|discriminate].
  destruct (dev_caps (os_device os p)) as [st c']; simpl.
  destruct (N.eqb_spec st HIDP_STATUS_SUCCESS); [|discriminate].
  intro H. inversion H. subst. auto.
Qed.

Lemma attr_g_Some os p a' :
  attr_g os p = Some a' ->
  exists a, dev_attributes (os_device os p) = Some a /\ a' = convert_attributes a.
Proof.
  unfold attr_g. destruct (dev_attributes (os_device os p)) as [a|]; simpl; [|discriminate].
  intro H. inversion H. eauto.
Qed.

(** C4.  Every record of the result belongs to a device whose path was
    resolved, whose open succeeded, and whose attributes, preparsed data
    and capabilities were all obtained; a device whose attributes query
    fails has no record. *)
Theorem result_records_complete NDEBUG os w l w' :
  OS_ok os ->
  GetlInstalledDevicesInfo NDEBUG os w = (Ok l, w') ->
  (forall r, In r l -> complete os r) /\
  (forall p, dev_attributes (os_device os p) = None -> ~ In p (map devicePath l)).
Proof.
  intros Hos Hrun.
  destruct (@GetlInstalledDevicesInfo_cases NDEBUG os w l w' Hos Hrun) as (ps & HP & ->).
  assert (Hc : forall r, In r (expected os ps) -> complete os r).
  { intros r Hr. unfold expected in Hr.
    destruct (negb (os_devInfoSet os =? INVALID_HANDLE_VALUE)
              && forallb (name_ok os) ps && forallb (consistent os) ps);
      [|contradiction].
    apply path_records_In in Hr.
    destruct Hr as (p & a & n & c & Hp & Ha & Hn & Hcaps & ->).
    apply (Permutation_in _ HP) in Hp. unfold opened_paths in Hp.
    apply filter_In in Hp. destruct Hp as [Hd Ho].
    destruct (discovered_In _ _ Hd) as (Hne & d & Hin & Halloc & Hdet).
    destruct (caps_g_Some _ _ Hcaps) as [Hpre Hdc].
    destruct (attr_g_Some _ _ Ha) as (a0 & Ha0 & ->).
    unfold complete. simpl. repeat split; eauto. }
  split; [exact Hc|].
  intros p Hnone Hin. apply in_map_iff in Hin. destruct Hin as (r & <- & Hr).
  destruct (Hc r Hr) as (_ & _ & _ & _ & (a & Ha & _) & _). congruence.
Qed.

Lemma result_records_complete_witness :
  (forall r, In r [acme_record [1] [65; 99]; acme_record [2] []] ->
     complete (mock_os [[1]; [2]; [4]]) r) /\
  (forall p, dev_attributes (os_device (mock_os [[1]; [2]; [4]]) p) = None ->
     ~ In p (map devicePath [acme_record [1] [65; 99]; acme_record [2] []])).
Proof.
  apply (@result_records_complete true (mock_os [[1]; [2]; [4]]) fresh_world
           [acme_record [1] [65; 99]; acme_record [2] []]
           (snd (GetlInstalledDevicesInfo true (mock_os [[1]; [2]; [4]]) fresh_world))).
  - apply mock_os_ok.
  - vm_compute. reflexivity.
Defined.





Lemma path_records_paths os ps :
  forallb (name_ok os) ps = true -> forallb (consistent os) ps = true ->
  map devicePath (path_records os ps) = filter (fun p => is_some (attr_g os p)) ps.
Proof.
  induction ps as [|p ps IH]; simpl; intros Hn Hc; [reflexivity|].
  apply andb_true_iff in Hn. destruct Hn as [Hn Hns].
  apply andb_true_iff in Hc. destruct Hc as [Hc Hcs].
  rewrite map_app, IH by assumption.
  unfold name_ok in Hn. unfold consistent in Hc. unfold path_record.
  destruct (attr_g os p); simpl in *; [|reflexivity].
  destruct (name_g os p); [|discriminate].
  destruct (caps_g os p); [|discriminate]. reflexivity.
Qed.

Lemma count_occ_filter {A} (dec : forall x y : A, {x = y} + {x <> y})
    (f : A -> bool) (l : list A) x :
  f x = true -> count_occ dec (filter f l) x = count_occ dec l x.
Proof.
  intro Hf. induction l as [|y l IH]; simpl; [reflexivity|].
  destruct (dec y x) as [->|Hne].
  - rewrite Hf. simpl. destruct (dec x x); [|contradiction]. now rewrite IH.
  - destruct (f y); simpl; [|assumption].
    destruct (dec y x); [contradiction|assumption].
Qed.

(** The result holds as many records for a path as discovery yielded
    entries for it, when the device opens and has attributes. *)
Lemma result_path_count NDEBUG os w l w1 p a :
  OS_ok os ->
  try_block NDEBUG os w = (Ok (Some l), w1) ->
  dev_openable (os_device os p) = true ->
  dev_attributes (os_device os p) = Some a ->
  count_occ wstring_eq_dec (map devicePath l) p =
  count_occ wstring_eq_dec (discovered os) p.
Proof.
  intros Hos Hrun Ho Ha.
  destruct (@try_block_returns NDEBUG os w l w1 Hos Hrun)
    as (odh & _ & HP & _ & Hn & Hc & ->).
  rewrite path_records_paths by assumption.
  rewrite count_occ_filter by (unfold attr_g; now rewrite Ha).
  rewrite (proj1 (Permutation_count_occ wstring_eq_dec _ _) HP).
  unfold opened_paths. now apply count_occ_filter.
Qed.

(** C7, as stated, fails.  Path [1] is discovered twice and both opens
    succeed, but device [3] of the same set makes the whole call fail and
    the result is empty.  And path [4] is discovered twice and both opens
    succeed in a call that returns a record for device [1], but the
    attributes query of device [4] fails (line 125) and the result holds
    no record for it. *)
Lemma duplicate_path_without_records :
  (OS_ok (mock_os [[1]; [1]; [3]]) /\
   count_occ wstring_eq_dec (discovered (mock_os [[1]; [1]; [3]])) [1] = 2%nat /\
   dev_openable (os_device (mock_os [[1]; [1]; [3]]) [1]) = true /\
   fst (GetlInstalledDevicesInfo true (mock_os [[1]; [1]; [3]]) fresh_world) = Ok []) /\
  (OS_ok (mock_os [[4]; [4]; [1]]) /\
   count_occ wstring_eq_dec (discovered (mock_os [[4]; [4]; [1]])) [4] = 2%nat /\
   dev_openable (os_device (mock_os [[4]; [4]; [1]]) [4]) = true /\
   fst (GetlInstalledDevicesInfo true (mock_os [[4]; [4]; [1]]) fresh_world) =
     Ok [acme_record [1] [65; 99]] /\
   count_occ wstring_eq_dec (map devicePath [acme_record [1] [65; 99]]) [4] = 0%nat).
Proof.
  split; (split; [apply mock_os_ok|]); repeat split; vm_compute; reflexivity.
Qed.

(** C7, amended.  In a call whose [try] block reaches its [return], a
    path that discovery yields twice, whose opens succeed (with distinct
    handle values, as the OS promises) and whose attributes are obtained,
    has two records in the result: duplicates are not merged by path. *)
Theorem duplicate_paths_not_merged NDEBUG os w l w1 p a :
  OS_ok os ->
  try_block NDEBUG os w = (Ok (Some l), w1) ->
  count_occ wstring_eq_dec (discovered os) p = 2%nat ->
  dev_openable (os_device os p) = true ->
  dev_attributes (os_device os p) = Some a ->
  GetlInstalledDevicesInfo NDEBUG os w = (Ok l, w1) /\
  count_occ wstring_eq_dec (map devicePath l) p = 2%nat.
Proof.
  intros Hos Hrun Hcount Ho Ha.
  split; [now apply try_block_returns_routine|].
  rewrite <- Hcount. eapply result_path_count; eassumption.
Qed.

Lemma duplicate_paths_not_merged_witness :
  GetlInstalledDevicesInfo true (mock_os [[1]; [2]; [1]]) fresh_world =
    (Ok [acme_record [1] [65; 99]; acme_record [2] []; acme_record [1] [65; 99]],
     snd (GetlInstalledDevicesInfo true (mock_os [[1]; [2]; [1]]) fresh_world)) /\
  count_occ wstring_eq_dec
    (map devicePath
       [acme_record [1] [65; 99]; acme_record [2] []; acme_record [1] [65; 99]])
    [1] = 2%nat.
Proof.
  apply (@duplicate_paths_not_merged true (mock_os [[1]; [2]; [1]]) fresh_world
           [acme_record [1] [65; 99]; acme_record [2] []; acme_record [1] [65; 99]]
           (snd (GetlInstalledDevicesInfo true (mock_os [[1]; [2]; [1]]) fresh_world))
           [1] acme_attributes).
  - apply mock_os_ok.
  - vm_compute. reflexivity.
  - vm_compute. reflexivity.
  - reflexivity.
  - reflexivity.
Defined.





Lemma expected_perm os ps1 ps2 :
  Permutation ps1 ps2 -> Permutation (expected os ps1) (expected os ps2).
Proof.
  intro HP. unfold expected.
  rewrite (forallb_perm (name_ok os) HP), (forallb_perm (consistent os) HP).
  destruct (negb (os_devInfoSet os =? INVALID_HANDLE_VALUE)
            && forallb (name_ok os) ps2 && forallb (consistent os) ps2);
    [|constructor].
  unfold path_records. now apply Permutation_flat_map.
Qed.

(** C9.  Two consecutive calls against the same device state return the
    same records, up to their order. *)
Theorem consecutive_calls_agree NDEBUG os w l1 w1 l2 w2 :
  OS_ok os ->
  GetlInstalledDevicesInfo NDEBUG os w = (Ok l1, w1) ->
  GetlInstalledDevicesInfo NDEBUG os w1 = (Ok l2, w2) ->
  Permutation l1 l2.
Proof.
  intros Hos H1 H2.
  destruct (@GetlInstalledDevicesInfo_cases NDEBUG os w l1 w1 Hos H1) as (ps1 & HP1 & ->).
  destruct (@GetlInstalledDevicesInfo_cases NDEBUG os w1 l2 w2 Hos H2) as (ps2 & HP2 & ->).
  apply expected_perm. rewrite HP1. now apply Permutation_sym.
Qed.

Lemma consecutive_calls_agree_witness :
  Permutation [acme_record [1] [65; 99]; acme_record [2] []]
              [acme_record [2] []; acme_record [1] [65; 99]].
Proof.
  apply (@consecutive_calls_agree true (flip_os [[1]; [4]; [2]]) fresh_world
           [acme_record [1] [65; 99]; acme_record [2] []]
           (snd (GetlInstalledDevicesInfo true (flip_os [[1]; [4]; [2]]) fresh_world))
           [acme_record [2] []; acme_record [1] [65; 99]]
           (snd (GetlInstalledDevicesInfo true (flip_os [[1]; [4]; [2]])
                   (snd (GetlInstalledDevicesInfo true (flip_os [[1]; [4]; [2]])
                           fresh_world))))).
  - apply flip_os_ok.
  - vm_compute. reflexivity.
  - vm_compute. reflexivity.
Defined.

(** * Further properties *)

(** ** [GetDevicePath] *)



(** ** The enumeration loop *)




(** ** The routine's result *)

(** X5.  With [NDEBUG] the routine returns, and what it returns is, up to
    order, one record per opened device that has attributes, when no opened
    device fails the call, and nothing otherwise. *)
Theorem routine_result_with_NDEBUG os w :
  OS_ok os ->
  exists l w',
    GetlInstalledDevicesInfo true os w = (Ok l, w') /\
    Permutation l (expected os (opened_paths os)).
Proof.
  intro Hos.
  destruct (routine_returns_with_NDEBUG os w) as (l & w' & Hrun & _).
  exists l, w'. split; [exact Hrun|].
  destruct (@GetlInstalledDevicesInfo_cases true os w l w' Hos Hrun) as (ps & HP & ->).
  now apply expected_perm.
Qed.

Lemma routine_result_with_NDEBUG_witness :
  exists l w',
    GetlInstalledDevicesInfo true (flip_os [[1]; [4]; [9]; [2]]) fresh_world = (Ok l, w') /\
    Permutation l (expected (flip_os [[1]; [4]; [9]; [2]])
                            (opened_paths (flip_os [[1]; [4]; [9]; [2]]))).
Proof.
  apply (@routine_result_with_NDEBUG (flip_os [[1]; [4]; [9]; [2]]) fresh_world).
  apply flip_os_ok.
Defined.

(** X6.  When discovery returns a set without members, the routine returns
    the empty sequence in either build, after exactly two OS calls (the
    discovery and one enumeration); the set stays alive. *)
Theorem no_members_returns_empty NDEBUG os w :
  os_devInfoSet os <> INVALID_HANDLE_VALUE ->
  os_interfaces os = [] ->
  GetlInstalledDevicesInfo NDEBUG os w =
  (Ok [],
   mkWorld (os_devInfoSet os :: w_devinfo w) (w_handles w) (w_blobs w)
           (CallSetupDiEnumDeviceInterfaces 0 :: CallSetupDiGetClassDevs :: w_trace w)).
Proof.
  intros Hv Hnil.
  rewrite GetlInstalledDevicesInfo_unfold, try_block_unfold.
  unfold bind at 1. rewrite SetupDiGetClassDevs_run by assumption.
  rewrite (proj2 (N.eqb_neq _ _) Hv). cbn [negb].
  unfold devicePaths_init. rewrite Hnil. cbn [length enum_loop].
  unfold SetupDiEnumDeviceInterfaces. rewrite Hnil.
  destruct NDEBUG; reflexivity.
Qed.

Lemma no_members_returns_empty_witness :
  GetlInstalledDevicesInfo false (mock_os []) fresh_world =
  (Ok [],
   mkWorld [100] [] [] [CallSetupDiEnumDeviceInterfaces 0; CallSetupDiGetClassDevs]).
Proof.
  apply (@no_members_returns_empty false (mock_os []) fresh_world).
  - vm_compute. discriminate.
  - reflexivity.
Defined.

(** X7.  A returning call never destroys the device-information set: when
    discovery yields a set, one more set is alive after the call than
    before; when it yields the invalid handle, the live sets are unchanged. *)
Theorem device_information_set_left_alive NDEBUG os w l w' :
  OS_ok os ->
  GetlInstalledDevicesInfo NDEBUG os w = (Ok l, w') ->
  w_devinfo w' =
  if os_devInfoSet os =? INVALID_HANDLE_VALUE then w_devinfo w
  else os_devInfoSet os :: w_devinfo w.
Proof.
  intros Hos Hrun. rewrite GetlInstalledDevicesInfo_unfold in Hrun.
  destruct (N.eqb_spec (os_devInfoSet os) INVALID_HANDLE_VALUE) as [Hi|Hv].
  - rewrite try_block_invalid in Hrun by assumption. inversion Hrun. reflexivity.
  - destruct (@try_block_spec NDEBUG os Hos w Hv) as (w1 & Hd & Hspec).
    assert (Hw : snd (try_block NDEBUG os w) = w1).
    { destruct (NDEBUG || forallb if_alloc_ok (os_interfaces os)).
      - destruct Hspec as (odh & sz & _ & _ & _ & Htb & _). now rewrite Htb.
      - now rewrite Hspec. }
    destruct (try_block NDEBUG os w) as [[[l'|]|e|] w2]; simpl in Hw; subst w2.
    + inversion Hrun; subst. exact Hd.
    + inversion Hrun; subst. exact Hd.
    + destruct NDEBUG; inversion Hrun; subst. exact Hd.
    + discriminate.
Qed.

Lemma device_information_set_left_alive_witness :
  w_devinfo (snd (GetlInstalledDevicesInfo true (mock_os [[1]; [3]])
                    (snd (GetlInstalledDevicesInfo true (mock_os [[1]; [3]]) fresh_world)))) =
  [100; 100].
Proof.
  eapply (@device_information_set_left_alive true (mock_os [[1]; [3]])
            (snd (GetlInstalledDevicesInfo true (mock_os [[1]; [3]]) fresh_world))).
  - apply mock_os_ok.
  - vm_compute. reflexivity.
Defined.

Lemma path_records_length os ps : (length (path_records os ps) <= length ps)%nat.
Proof.
  induction ps as [|p ps IH]; simpl; [apply le_n|].
  rewrite length_app. unfold path_record.
  destruct (attr_g os p), (name_g os p), (caps_g os p); simpl; lia.
Qed.

Lemma filter_length_bound {A} (f : A -> bool) (l : list A) :
  (length (filter f l) <= length l)%nat.
Proof. induction l as [|x l IH]; simpl; [apply le_n|]. destruct (f x); simpl; lia. Qed.

(** X8.  A returned sequence never has more records than the device
    paths that were discovered and could be opened, hence never more than
    the set has members. *)
Theorem result_length_bound NDEBUG os w l w' :
  OS_ok os ->
  GetlInstalledDevicesInfo NDEBUG os w = (Ok l, w') ->
  (length l <= length (opened_paths os))%nat /\
  (length (opened_paths os) <= length (os_interfaces os))%nat.
Proof.
  intros Hos Hrun.
  destruct (@GetlInstalledDevicesInfo_cases NDEBUG os w l w' Hos Hrun) as (ps & HP & ->).
  split.
  - rewrite <- (Permutation_length HP). unfold expected.
    destruct (negb (os_devInfoSet os =? INVALID_HANDLE_VALUE)
              && forallb (name_ok os) ps && forallb (consistent os) ps).
    + apply path_records_length.
    + simpl. lia.
  - unfold opened_paths, discovered, discovered_from.
    etransitivity; [apply filter_length_bound|].
    etransitivity; [apply filter_length_bound|].
    rewrite length_map. apply le_n.
Qed.

Lemma result_length_bound_witness :
  le (length [acme_record [1] [65; 99]; acme_record [2] []])
         (length (opened_paths (mock_os [[1]; [4]; [9]; [2]]))) /\
  le (length (opened_paths (mock_os [[1]; [4]; [9]; [2]])))
         (length (os_interfaces (mock_os [[1]; [4]; [9]; [2]]))).
Proof.
  apply (@result_length_bound true (mock_os [[1]; [4]; [9]; [2]]) fresh_world
           [acme_record [1] [65; 99]; acme_record [2] []]
           (snd (GetlInstalledDevicesInfo true (mock_os [[1]; [4]; [9]; [2]]) fresh_world))).
  - apply mock_os_ok.
  - vm_compute. reflexivity.
Defined.

(** ** The manufacturer string *)

Lemma find_first_of_In (s : wstring) (c : wchar_t) :
  In c s -> N.of_nat (length s) < npos ->
  exists k, find_first_of s c = N.of_nat k /\ (k < length s)%nat /\
            ~ In c (firstn k s).
Proof.
  induction s as [|x s IH]; simpl; intros Hin Hlen; [contradiction|].
  destruct (N.eqb_spec x c) as [->|Hne].
  - exists 0%nat. repeat split; [lia|]. simpl. auto.
  - destruct Hin as [Hin|Hin]; [contradiction|].
    destruct (IH Hin) as (k & Hk & Hlt & Hnot); [lia|].
    rewrite Hk. destruct (N.eqb_spec (N.of_nat k) npos) as [E|_]; [lia|].
    exists (S k). repeat split; [lia|lia|].
    simpl. intros [E|E]; [contradiction|auto].
Qed.

Lemma buffer_write_length data len buf :
  length (buffer_write data len buf) = length buf.
Proof.
  unfold buffer_write. rewrite length_firstn, length_app, length_skipn. lia.
Qed.

Lemma manufacturer_buffer_length d :
  length (manufacturer_buffer d) = N.to_nat MAX_USB_DEVICE_STR_LEN.
Proof.
  unfold manufacturer_buffer. destruct (dev_manufacturer d).
  - rewrite buffer_write_length. apply repeat_length.
  - apply repeat_length.
Qed.

(** The truncation at lines 109-110 on a buffer that holds a terminator. *)
Lemma name_g_terminated os p :
  In 0 (manufacturer_buffer (os_device os p)) ->
  exists k, name_g os p = Some (firstn k (manufacturer_buffer (os_device os p))) /\
            (k < N.to_nat MAX_USB_DEVICE_STR_LEN)%nat /\
            ~ In 0 (firstn k (manufacturer_buffer (os_device os p))).
Proof.
  intro Hin. unfold name_g.
  pose proof (manufacturer_buffer_length (os_device os p)) as Hlen.
  set (buf := manufacturer_buffer (os_device os p)) in *.
  assert (H126 : N.to_nat MAX_USB_DEVICE_STR_LEN = 126%nat) by reflexivity.
  assert (Hnpos : npos = 18446744073709551615) by reflexivity.
  destruct (find_first_of_In buf 0 Hin) as (k & Hk & Hlt & Hnot); [lia|].
  exists k. rewrite Hk. unfold wstring_erase.
  destruct (N.ltb_spec (N.of_nat (length buf)) (N.of_nat k)); [lia|].
  rewrite Nat2N.id. repeat split; [lia|assumption].
Qed.

Lemma name_g_unterminated os p :
  ~ In 0 (manufacturer_buffer (os_device os p)) -> name_g os p = None.
Proof.
  intro Hnot. unfold name_g. rewrite find_first_of_absent by assumption.
  unfold wstring_erase. rewrite manufacturer_buffer_length. reflexivity.
Qed.

Lemma name_g_Some_spec os p s :
  name_g os p = Some s ->
  ~ In 0 s /\ (length s < N.to_nat MAX_USB_DEVICE_STR_LEN)%nat.
Proof.
  intro H.
  destruct (in_dec N.eq_dec 0 (manufacturer_buffer (os_device os p))) as [Hin|Hnot].
  - destruct (name_g_terminated os p Hin) as (k & Hk & Hlt & Hnz).
    rewrite Hk in H. inversion H; subst. split; [assumption|].
    pose proof (firstn_le_length k (manufacturer_buffer (os_device os p))). lia.
  - rewrite name_g_unterminated in H by assumption. discriminate.
Qed.

(** X3.  The manufacturer string of every returned record is shorter than
    the 126 code units of the buffer and holds no terminator. *)
Theorem manufacturer_strings_are_terminated NDEBUG os w l w' r :
  OS_ok os ->
  GetlInstalledDevicesInfo NDEBUG os w = (Ok l, w') ->
  In r l ->
  ~ In 0 (manufacturer r) /\
  (length (manufacturer r) < N.to_nat MAX_USB_DEVICE_STR_LEN)%nat.
Proof.
  intros Hos Hrun Hr.
  destruct (@GetlInstalledDevicesInfo_cases NDEBUG os w l w' Hos Hrun) as (ps & HP & ->).
  unfold expected in Hr.
  destruct (negb (os_devInfoSet os =? INVALID_HANDLE_VALUE)
            && forallb (name_ok os) ps && forallb (consistent os) ps);
    [|contradiction].
  apply path_records_In in Hr.
  destruct Hr as (p & a & n & c & _ & _ & Hn & _ & ->). simpl.
  eapply name_g_Some_spec; eassumption.
Qed.

Lemma manufacturer_strings_are_terminated_witness :
  ~ In 0 (manufacturer (acme_record [1] [65; 99])) /\
  lt (length (manufacturer (acme_record [1] [65; 99])))
     (N.to_nat MAX_USB_DEVICE_STR_LEN).
Proof.
  apply (@manufacturer_strings_are_terminated true (mock_os [[1]; [2]]) fresh_world
           [acme_record [1] [65; 99]; acme_record [2] []]
           (snd (GetlInstalledDevicesInfo true (mock_os [[1]; [2]]) fresh_world))
           (acme_record [1] [65; 99])).
  - apply mock_os_ok.
  - vm_compute. reflexivity.
  - simpl. auto.
Defined.

Lemma find_first_of_app (s t : wstring) (c : wchar_t) :
  ~ In c s -> N.of_nat (length s) < npos ->
  find_first_of (s ++ c :: t) c = N.of_nat (length s).
Proof.
  induction s as [|x s IH]; simpl; intros Hnot Hlen.
  - now rewrite N.eqb_refl.
  - destruct (N.eqb_spec x c); [exfalso; auto|].
    rewrite IH by (try tauto; lia).
    destruct (N.eqb_spec (N.of_nat (length s)) npos); lia.
Qed.

Lemma firstn_app_cons {A} (n : nat) (s : list A) x t :
  (length s < n)%nat ->
  firstn n (s ++ x :: t) = s ++ x :: firstn (n - S (length s)) t.
Proof.
  intro H. rewrite firstn_app, firstn_all2 by lia.
  replace (n - length s)%nat with (S (n - S (length s))) by lia. reflexivity.
Qed.

Lemma skipn_repeat_cons {A} (x : A) (n k : nat) :
  (k < n)%nat -> skipn k (repeat x n) = x :: skipn (S k) (repeat x n).
Proof. intro H. apply nth_error_skipn. now apply nth_error_repeat. Qed.

(** The buffer after the driver wrote [s], followed by nothing or by a
    terminator and more: [s], a terminator, and a rest. *)
Lemma manufacturer_buffer_written d s rest :
  dev_manufacturer d = Some (s ++ rest) ->
  (length s < N.to_nat MAX_USB_DEVICE_STR_LEN)%nat ->
  rest = [] \/ (exists t, rest = 0 :: t) ->
  exists tail, manufacturer_buffer d = s ++ 0 :: tail.
Proof.
  intros Hm Hlen Hrest. unfold manufacturer_buffer. rewrite Hm.
  unfold buffer_write, zero_buffer. rewrite repeat_length.
  set (n := N.to_nat MAX_USB_DEVICE_STR_LEN) in *.
  destruct Hrest as [->|(t & ->)].
  - rewrite app_nil_r, (@firstn_all2 _ n s) by lia.
    rewrite skipn_repeat_cons by lia.
    rewrite firstn_app_cons by lia. eauto.
  - rewrite firstn_app_cons by lia.
    rewrite <- app_assoc, <- app_comm_cons.
    rewrite firstn_app_cons by lia. eauto.
Qed.

Lemma name_g_written os p s rest :
  dev_manufacturer (os_device os p) = Some (s ++ rest) ->
  ~ In 0 s ->
  (length s < N.to_nat MAX_USB_DEVICE_STR_LEN)%nat ->
  rest = [] \/ (exists t, rest = 0 :: t) ->
  name_g os p = Some s.
Proof.
  intros Hm Hnz Hlen Hrest.
  destruct (manufacturer_buffer_written _ _ Hm Hlen Hrest) as (tail & Hbuf).
  pose proof (manufacturer_buffer_length (os_device os p)) as Hl.
  assert (H126 : N.to_nat MAX_USB_DEVICE_STR_LEN = 126%nat) by reflexivity.
  assert (Hnpos : npos = 18446744073709551615) by reflexivity.
  unfold name_g. rewrite Hbuf in *.
  rewrite find_first_of_app by (try assumption; lia).
  unfold wstring_erase.
  destruct (N.ltb_spec (N.of_nat (length (s ++ 0 :: tail))) (N.of_nat (length s))) as [H|_].
  - rewrite length_app in H. lia.
  - rewrite Nat2N.id, firstn_app, firstn_all, PeanoNat.Nat.sub_diag. simpl.
    now rewrite app_nil_r.
Qed.

(** X4.  In a call whose [try] block reaches its [return], a discovered
    and opened device that has attributes and whose driver wrote the
    string [s] (fewer than 126 code units, none of them the terminator,
    followed by nothing or by a terminator) is in the result with
    manufacturer [s], its attributes and its capabilities. *)
Theorem written_manufacturer_is_returned NDEBUG os w l w1 p s rest a :
  OS_ok os ->
  try_block NDEBUG os w = (Ok (Some l), w1) ->
  In p (discovered os) ->
  dev_openable (os_device os p) = true ->
  dev_manufacturer (os_device os p) = Some (s ++ rest) ->
  ~ In 0 s ->
  (length s < N.to_nat MAX_USB_DEVICE_STR_LEN)%nat ->
  rest = [] \/ (exists t, rest = 0 :: t) ->
  dev_attributes (os_device os p) = Some a ->
  exists c,
    dev_caps (os_device os p) = (HIDP_STATUS_SUCCESS, c) /\
    In (mkHidDeviceInfo p s (convert_attributes a) c) l.
Proof.
  intros Hos Hrun Hd Ho Hm Hnz Hlen Hrest Ha.
  destruct (@try_block_returns NDEBUG os w l w1 Hos Hrun)
    as (odh & _ & HP & _ & _ & Hc & ->).
  assert (Hin : In p (map snd odh)).
  { eapply Permutation_in; [apply Permutation_sym; exact HP|].
    unfold opened_paths. apply filter_In. auto. }
  rewrite forallb_forall in Hc. specialize (Hc p Hin).
  unfold consistent, attr_g in Hc. rewrite Ha in Hc. simpl in Hc.
  destruct (caps_g os p) as [c|] eqn:Ec; [|discriminate].
  exists c. split; [apply (caps_g_Some _ _ Ec)|].
  unfold path_records. apply in_flat_map. exists p. split; [assumption|].
  unfold path_record, attr_g.
  rewrite Ha, (@name_g_written os p s rest Hm Hnz Hlen Hrest), Ec. simpl. auto.
Qed.

Lemma written_manufacturer_is_returned_witness :
  exists c,
    dev_caps (os_device (mock_os [[1]; [4]]) [1]) = (HIDP_STATUS_SUCCESS, c) /\
    In (mkHidDeviceInfo [1] [65; 99] (convert_attributes acme_attributes) c)
       [acme_record [1] [65; 99]].
Proof.
  apply (@written_manufacturer_is_returned true (mock_os [[1]; [4]]) fresh_world
           [acme_record [1] [65; 99]]
           (snd (try_block true (mock_os [[1]; [4]]) fresh_world))
           [1] [65; 99] [0] acme_attributes).
  - apply mock_os_ok.
  - vm_compute. reflexivity.
  - vm_compute. auto.
  - reflexivity.
  - reflexivity.
  - intro H. simpl in H. destruct H as [H|[H|H]]; try discriminate; exact H.
  - vm_compute. lia.
  - right. exists []. reflexivity.
  - reflexivity.
Defined.

(** ** When the whole call fails *)

Lemma name_ok_false_iff os p :
  name_ok os p = false <-> ~ In 0 (manufacturer_buffer (os_device os p)).
Proof.
  unfold name_ok. split.
  - intros H Hin. destruct (name_g_terminated os p Hin) as (k & Hk & _).
    rewrite Hk in H. discriminate.
  - intro H. now rewrite name_g_unterminated.
Qed.

Lemma consistent_false_iff os p :
  consistent os p = false <->
  dev_attributes (os_device os p) <> None /\
  (dev_preparsed (os_device os p) = false \/
   fst (dev_caps (os_device os p)) <> HIDP_STATUS_SUCCESS).
Proof.
  unfold consistent, attr_g, caps_g, parse_g.
  destruct (dev_attributes (os_device os p)) as [a|]; simpl;
    destruct (dev_preparsed (os_device os p)); simpl;
    destruct (N.eqb_spec (fst (dev_caps (os_device os p))) HIDP_STATUS_SUCCESS);
    simpl; split; intro H; try discriminate; try reflexivity;
    try (split; [discriminate|auto]);
    destruct H as [H1 [H2|H2]]; congruence.
Qed.






(** ** The handle map *)

Lemma map_find_emplace {V} (k k' : HANDLE) (v : V) (m : hmap V) :
  hsorted m ->
  map_find k' (map_emplace k v m) =
  match map_find k' m with
  | Some x => Some x
  | None => if k' =? k then Some v else None
  end.
Proof.
  induction m as [|[k0 v0] m IH]; intro Hs.
  - simpl. destruct (k' =? k); reflexivity.
  - cbn [map_emplace]. destruct (N.ltb_spec k k0) as [Hlt|Hge].
    + cbn [map_find]. destruct (N.eqb_spec k' k) as [->|Hne].
      * destruct (N.eqb_spec k k0); [lia|].
        rewrite map_find_None; [reflexivity|].
        intro Hin. pose proof (@hsorted_head V (k0, v0) m k Hs Hin) as H1.
        simpl in H1. lia.
      * destruct (k' =? k0); [reflexivity|]. destruct (map_find k' m); reflexivity.
    + destruct (N.eqb_spec k k0) as [->|Hne].
      * cbn [map_find]. destruct (N.eqb_spec k' k0); [reflexivity|].
        destruct (map_find k' m); reflexivity.
      * cbn [map_find]. destruct (k' =? k0); [reflexivity|].
        apply IH. eapply hsorted_tail; eauto.
Qed.

(** X10.  Whatever handle values the OS returns, the map of open handles
    stays in strictly ascending key order and no entry of it is ever
    replaced: when an open returns a value already in the map, the path
    recorded first stays. *)
Theorem open_loop_keeps_first_entry os devicePaths : forall handles w,
  hsorted handles ->
  exists openDeviceHandles w',
    open_loop os devicePaths handles w = (Ok openDeviceHandles, w') /\
    hsorted openDeviceHandles /\
    forall h p, map_find h handles = Some p -> map_find h openDeviceHandles = Some p.
Proof.
  induction devicePaths as [|devPath rest IH]; intros handles w Hs.
  - exists handles, w. simpl. auto.
  - simpl. unfold bind at 1. rewrite CreateFile_run. cbv zeta.
    destruct (openable os devPath).
    + match goal with |- context [open_loop os rest ?acc ?w1] =>
        destruct (IH acc w1) as (odh & w' & Hrun & Hso & Hkeep)
      end.
      { destruct (negb _); [now apply map_emplace_sorted|assumption]. }
      exists odh, w'. repeat split; auto.
      intros h p Hf. apply Hkeep.
      destruct (negb _); [|assumption].
      rewrite map_find_emplace by assumption. now rewrite Hf.
    + destruct (IH (if negb (INVALID_HANDLE_VALUE =? INVALID_HANDLE_VALUE)
                    then map_emplace INVALID_HANDLE_VALUE devPath handles else handles)
                   (logw (CallCreateFile devPath) w))
        as (odh & w' & Hrun & Hso & Hkeep).
      { rewrite N.eqb_refl. exact Hs. }
      exists odh, w'. repeat split; auto.
Qed.

Lemma open_loop_keeps_first_entry_witness :
  exists openDeviceHandles w',
    open_loop (stuck_os [[1]; [2]]) [[2]; [1]] [(8, [1])] fresh_world =
      (Ok openDeviceHandles, w') /\
    hsorted openDeviceHandles /\
    forall h p, map_find h [(8, [1])] = Some p -> map_find h openDeviceHandles = Some p.
Proof.
  apply (@open_loop_keeps_first_entry (stuck_os [[1]; [2]]) [[2]; [1]] [(8, [1])]
           fresh_world).
  repeat constructor.
Defined.

(** ** The assertion on the collection sizes *)

Lemma fm_length {A B} (g : A -> option B) (m : hmap A) :
  length (fm g m) = length (filter (fun p => is_some (g p)) (map snd m)).
Proof.
  induction m as [|[h x] m IH]; simpl; [reflexivity|].
  rewrite length_app, IH. destruct (g x); reflexivity.
Qed.

Lemma filter_snd_length {A} (f : A -> bool) (m : hmap A) :
  length (filter (fun e => f (snd e)) m) = length (filter f (map snd m)).
Proof.
  induction m as [|[h x] m IH]; simpl; [reflexivity|].
  destruct (f x); simpl; now rewrite IH.
Qed.

Lemma filter_length_perm {A} (f : A -> bool) (l1 l2 : list A) :
  Permutation l1 l2 -> length (filter f l1) = length (filter f l2).
Proof.
  induction 1; simpl; try congruence.
  - destruct (f x); simpl; congruence.
  - destruct (f x), (f y); reflexivity.
Qed.

Lemma filter_length_mono {A} (f g : A -> bool) (l : list A) :
  (forall x, In x l -> f x = true -> g x = true) ->
  (length (filter f l) <= length (filter g l))%nat.
Proof.
  induction l as [|x l IH]; simpl; intro H; [apply le_n|].
  assert (IH' := IH (fun y Hy => H y (or_intror Hy))).
  destruct (f x) eqn:Ef.
  - rewrite (H x (or_introl eq_refl) Ef). simpl. lia.
  - destruct (g x); simpl; lia.
Qed.

(** Two filters of one list, one contained in the other and of the same
    size, keep the same elements. *)
Lemma filter_length_eq_pointwise {A} (f g : A -> bool) (l : list A) :
  (forall x, In x l -> f x = true -> g x = true) ->
  length (filter f l) = length (filter g l) ->
  forall x, In x l -> f x = g x.
Proof.
  induction l as [|y l IH]; simpl; intros H Hlen x Hx; [contradiction|].
  assert (Hsub : forall z, In z l -> f z = true -> g z = true)
    by (intros; apply H; auto).
  pose proof (filter_length_mono f g l Hsub) as Hle.
  destruct (f y) eqn:Ef.
  - rewrite (H y (or_introl eq_refl) Ef) in Hlen. simpl in Hlen.
    destruct Hx as [->|Hx].
    + rewrite Ef. symmetry. apply H; auto.
    + apply IH; auto; lia.
  - destruct (g y) eqn:Eg; simpl in Hlen; [lia|].
    destruct Hx as [->|Hx]; [congruence|]. apply IH; auto.
Qed.

Lemma sizes_spec_perm os ps1 ps2 :
  Permutation ps1 ps2 -> sizes_spec os ps1 = sizes_spec os ps2.
Proof.
  intro HP. unfold sizes_spec.
  now rewrite !(filter_length_perm _ HP).
Qed.

(** Without [NDEBUG], the scope of the preparsed data is left normally
    only if the assertion held. *)
Lemma blob_scope_asserted os odh names w r w' :
  OS_ok os -> resolves (w_handles w) odh -> hsorted odh ->
  blob_scope false os odh names (fm (attr_g os) odh) w = (Ok r, w') ->
  sizes_spec os (map snd odh) = true.
Proof.
  intros Hos Hres Hs Hrun. unfold blob_scope, handlePreparsedDataMap_init in Hrun.
  destruct (@preparsed_loop_spec os Hos odh [] w Hres Hs (below_nil _))
    as (tl & w1 & Hrun1 & Hd1 & Hh1 & Hb1 & Hf & Hnd & Hall).
  unfold bind at 1 in Hrun. rewrite Hrun1 in Hrun. cbn [app] in Hrun.
  unfold scope_guard, devPathCapsMap_init in Hrun.
  assert (Hlook : Forall (fun t => map_find (snd (fst t)) (w_blobs w1) = Some (snd t)) tl).
  { apply Forall_forall. intros t Ht. rewrite Hb1, map_find_app.
    rewrite map_find_In with (v := snd t); [reflexivity| |].
    - rewrite keys_rev. now apply NoDup_rev.
    - apply in_rev. rewrite rev_involutive. now apply (in_map t_pp) in Ht. }
  assert (Hs' : hsorted (map t_hpath tl)) by (rewrite Hf; now apply hsorted_filter).
  destruct (@caps_loop_spec os tl (mkHIDP_CAPS 0 0 0 0 0) [] w1 Hlook Hs' (below_nil _))
    as (w2 & _ & Hrun2).
  unfold bind at 1 in Hrun. rewrite Hrun2 in Hrun. cbn [app] in Hrun.
  rewrite Hf, fm_parse_filter in Hrun.
  unfold bind at 1 in Hrun. unfold assert in Hrun. cbn [orb] in Hrun.
  destruct (sizes_agree (fm (attr_g os) odh) (map t_hp tl) (fm (caps_g os) odh)) eqn:Esz;
    [|discriminate].
  unfold sizes_agree in Esz. unfold sizes_spec.
  rewrite !fm_length, length_map in Esz.
  assert (Hlen : length tl = length (filter (fun p => dev_preparsed (os_device os p))
                                            (map snd odh))).
  { rewrite <- (length_map t_hpath), Hf.
    apply (filter_snd_length (fun p => dev_preparsed (os_device os p)) odh). }
  rewrite Hlen in Esz. exact Esz.
Qed.

Lemma handle_scope_asserted os odh w r w' :
  OS_ok os -> resolves (w_handles w) odh -> hsorted odh ->
  handle_scope false os odh w = (Ok r, w') ->
  sizes_spec os (map snd odh) = true.
Proof.
  intros Hos Hres Hs Hrun.
  unfold handle_scope, scope_guard, hndManufacturerMap_init, handleAttributesMap_init in Hrun.
  destruct (@manufacturer_loop_spec os odh [] w Hres Hs (below_nil _))
    as (w1 & (Hd1 & Hh1 & Hb1) & Hrun1).
  unfold bind at 1 in Hrun. rewrite Hrun1 in Hrun.
  destruct (forallb (fun e => is_some (name_g os (snd e))) odh).
  - assert (Hres1 : resolves (w_handles w1) odh) by now rewrite Hh1.
    destruct (@attributes_loop_spec os odh (mkHIDD_ATTRIBUTES sizeof_HIDD_ATTRIBUTES 0 0 0)
                [] w1 Hres1 Hs (below_nil _)) as (w2 & (Hd2 & Hh2 & Hb2) & Hrun2).
    unfold bind at 1 in Hrun. rewrite Hrun2 in Hrun. cbn [app] in Hrun.
    assert (Hres2 : resolves (w_handles w2) odh) by now rewrite Hh2.
    destruct (blob_scope false os odh (fm (name_g os) odh) (fm (attr_g os) odh) w2)
      as [[r'|e|] w3] eqn:Eb.
    + eapply blob_scope_asserted; eassumption.
    + destruct (CloseHandlesGuard_dtor_spec odh w3) as (w4 & Hrun4 & _).
      unfold bind, throw in Hrun. rewrite Hrun4 in Hrun. discriminate.
    + discriminate.
  - destruct (CloseHandlesGuard_dtor_spec odh w1) as (w4 & Hrun4 & _).
    unfold bind, throw in Hrun. rewrite Hrun4 in Hrun. discriminate.
Qed.

Lemma try_block_asserted os w l w1 :
  OS_ok os ->
  try_block false os w = (Ok (Some l), w1) ->
  sizes_spec os (opened_paths os) = true.
Proof.
  intros Hos Hrun.
  destruct (N.eqb_spec (os_devInfoSet os) INVALID_HANDLE_VALUE) as [Hi|Hv].
  { rewrite try_block_invalid in Hrun by assumption. discriminate. }
  rewrite try_block_unfold in Hrun. unfold bind at 1 in Hrun.
  rewrite SetupDiGetClassDevs_run in Hrun by assumption.
  rewrite (proj2 (N.eqb_neq _ _) Hv) in Hrun. cbn [negb] in Hrun.
  destruct (devicePaths_init_spec false os (os_devInfoSet os)
              (mkWorld (os_devInfoSet os :: w_devinfo w) (w_handles w) (w_blobs w)
                       (CallSetupDiGetClassDevs :: w_trace w)))
    as (wa & (Hd1 & Hh1 & Hb1) & Hrun1).
  unfold bind at 1 in Hrun. rewrite Hrun1 in Hrun.
  destruct (false || forallb if_alloc_ok (os_interfaces os)); [|discriminate].
  unfold openDeviceHandles_init in Hrun.
  destruct (@open_loop_spec os Hos (discovered os) [] wa)
    as (opened & odh & wb & Hrun2 & Hs & HP & Hd2 & Hb2 & Hh2 & Hf & Hnd & Hdis).
  { constructor. }
  { intros k []. }
  cbn [app] in HP.
  unfold bind at 1 in Hrun. rewrite Hrun2 in Hrun.
  assert (Hres : resolves (w_handles wb) odh).
  { rewrite Hh2. apply resolves_table; [assumption|].
    intros e He. eapply Permutation_in; eassumption. }
  rewrite <- (@sizes_spec_perm os (map snd odh) (opened_paths os)).
  - eapply handle_scope_asserted; eassumption.
  - unfold opened_paths. rewrite <- Hf. now apply Permutation_map.
Qed.

(** X9.  In a build without [NDEBUG], a call whose [try] block reaches its
    [return] has passed the assertion on the collection sizes: each opened
    device either has attributes, preparsed data and capabilities, or has
    none of the three. *)
Theorem asserted_sizes_mean_all_or_nothing os w l w1 p :
  OS_ok os ->
  try_block false os w = (Ok (Some l), w1) ->
  In p (opened_paths os) ->
  is_some (attr_g os p) = is_some (caps_g os p) /\
  dev_preparsed (os_device os p) = is_some (caps_g os p).
Proof.
  intros Hos Hrun Hp.
  pose proof (@try_block_asserted os w l w1 Hos Hrun) as Hsz.
  destruct (@try_block_returns false os w l w1 Hos Hrun)
    as (odh & _ & HP & _ & _ & Hc & _).
  rewrite (forallb_perm (consistent os) HP) in Hc. rewrite forallb_forall in Hc.
  unfold sizes_spec in Hsz. apply andb_true_iff in Hsz. destruct Hsz as [H1 H2].
  apply PeanoNat.Nat.eqb_eq in H1. apply PeanoNat.Nat.eqb_eq in H2.
  assert (Hcp : forall x, In x (opened_paths os) ->
            is_some (caps_g os x) = dev_preparsed (os_device os x)).
  { apply filter_length_eq_pointwise; [|congruence].
    intros x _. unfold caps_g. destruct (dev_preparsed (os_device os x)); auto. }
  assert (Hac : forall x, In x (opened_paths os) ->
            is_some (attr_g os x) = is_some (caps_g os x)).
  { apply filter_length_eq_pointwise; [|congruence].
    intros x Hx Ha. specialize (Hc x Hx). unfold consistent in Hc.
    rewrite Ha in Hc. exact Hc. }
  split; [now apply Hac|]. symmetry. now apply Hcp.
Qed.

Lemma asserted_sizes_mean_all_or_nothing_witness :
  is_some (attr_g (mock_os [[1]; [9]; [2]]) [2]) =
    is_some (caps_g (mock_os [[1]; [9]; [2]]) [2]) /\
  dev_preparsed (os_device (mock_os [[1]; [9]; [2]]) [2]) =
    is_some (caps_g (mock_os [[1]; [9]; [2]]) [2]).
Proof.
  apply (@asserted_sizes_mean_all_or_nothing (mock_os [[1]; [9]; [2]]) fresh_world
           [acme_record [1] [65; 99]; acme_record [2] []]
           (snd (try_block false (mock_os [[1]; [9]; [2]]) fresh_world)) [2]).
  - apply mock_os_ok.
  - vm_compute. reflexivity.
  - vm_compute. auto.
Defined.

(** X12.  In a build without [NDEBUG], a call in which some opened device
    fills its manufacturer buffer without a terminator, or has attributes
    without capabilities, does not return: it stops at an assertion. *)
Theorem failing_device_stops_debug_build os w p :
  OS_ok os ->
  os_devInfoSet os <> INVALID_HANDLE_VALUE ->
  In p (opened_paths os) ->
  fails_the_call os p ->
  fst (GetlInstalledDevicesInfo false os w) = Abort.
Proof.
  intros Hos Hv Hp Hfail. rewrite GetlInstalledDevicesInfo_unfold.
  destruct (@try_block_spec false os Hos w Hv) as (w1 & _ & Hspec).
  destruct (false || forallb if_alloc_ok (os_interfaces os)).
  2:{ rewrite Hspec. reflexivity. }
  destruct Hspec as (odh & sz & _ & HP & _ & Htb & _).
  rewrite Htb. unfold body_outcome, inner_outcome. cbn [orb].
  apply (Permutation_in _ (Permutation_sym HP)) in Hp.
  destruct (forallb (name_ok os) (map snd odh)) eqn:En; cbn [negb]; [|reflexivity].
  destruct sz; cbn [negb]; [|reflexivity].
  destruct Hfail as [Hn|Hc].
  - apply name_ok_false_iff in Hn.
    rewrite (forallb_false_In (name_ok os) _ p Hp Hn) in En. discriminate.
  - apply consistent_false_iff in Hc.
    rewrite (forallb_false_In (consistent os) _ p Hp Hc). reflexivity.
Qed.

Lemma failing_device_stops_debug_build_witness :
  fst (GetlInstalledDevicesInfo false (mock_os [[1]; [5]]) fresh_world) = Abort.
Proof.
  apply (@failing_device_stops_debug_build (mock_os [[1]; [5]]) fresh_world [5]).
  - apply mock_os_ok.
  - vm_compute. discriminate.
  - vm_compute. auto.
  - left. intro H. vm_compute in H.
    repeat (destruct H as [H|H]; [discriminate|]). exact H.
Defined.
